(** * Pagination engine and enrichment orchestrator of python-zendesk-sdk

    A shallow embedding of [zendesk_sdk/pagination.py] (the paginator
    classes and their async iteration), of the limited search iterators of
    [clients/search.py] and of the enrichment methods of
    [clients/tickets.py].

    Modelling conventions.
    - Decoded JSON bodies are the type [json]; JSON numbers are integers.
      A string is a sequence of characters with code points below 256.
      Python [None] is [JNull]; [dict.get(k)] of an absent key is [JNull].
    - A Python dict of request parameters is an association list with
      Python's update semantics ([dict_set] replaces in place, or appends).
    - Python exceptions are the type [exn]; [except Exception] catches all
      of them.
    - Every effectful method runs in the state-and-error monad [M] over a
      [world]: the paginator object's attributes and the list of Transport
      GET requests issued so far.  The Transport is a function [server] of
      that request history and of the request; it returns a decoded body or
      raises.
    - An async generator is a state machine: its [__anext__] is a monadic
      step returning the next item, or [None] when the generator is
      exhausted.  Loops that Python could run forever take a fuel argument;
      running out of fuel yields [Stuck], which no handler catches. *)

From Stdlib Require Import ZArith List String Bool Lia Permutation.
From stdpp Require Import base list gmap strings pretty.
Import ListNotations.
Open Scope Z_scope.
Set Warnings "-register-all".

(** ** Decoded JSON values *)

Inductive json : Type :=
| JNull
| JBool (b : bool)
| JNum (n : Z)
| JStr (s : string)
| JArr (l : list json)
| JObj (kvs : list (string * json)).

(** Python truthiness of a decoded value. *)
Definition truthy (v : json) : bool :=
  match v with
  | JNull => false
  | JBool b => b
  | JNum n => negb (Z.eqb n 0)
  | JStr s => negb (String.eqb s "")
  | JArr l => negb (Nat.eqb (length l) 0)
  | JObj kvs => negb (Nat.eqb (length kvs) 0)
  end.

(** Python's [a or b]. *)
Definition py_or (a b : json) : json := if truthy a then a else b.

Definition is_none (v : json) : bool :=
  match v with JNull => true | _ => false end.

(** Key lookup in a decoded object: [json.loads] keeps the last of
    duplicated keys. *)
Definition obj_find (k : string) (kvs : list (string * json)) : option json :=
  match find (fun kv => String.eqb (fst kv) k) (rev kvs) with
  | Some kv => Some (snd kv)
  | None => None
  end.

(** ** Exceptions *)

Inductive exn : Type :=
| ZendeskHTTPException (status_code : Z) (message : string)
  (** A pagination error: its message is
      ["Error during pagination: " ++ str(cause)], its details are
      [{"page": page, "per_page": per_page}].  Modelled from the spec:
      [zendesk_sdk/exceptions.py] is not in the repository snapshot; the
      exception is raised with the message and the details dict. *)
| ZendeskPaginationException (cause : exn) (page per_page : Z)
| TypeError
| AttributeError
| KeyError (key : string)
| ZeroDivisionError
| ValueError (message : string)
| ValidationError.

(** ** Results and the monad *)

Inductive res (A : Type) : Type :=
| Ret (a : A)
| Exc (e : exn)
| Stuck.
Arguments Ret {A} a.
Arguments Exc {A} e.
Arguments Stuck {A}.

(** [dict.get(k, default)]: raises [AttributeError] on a non-dict. *)
Definition py_get (o : json) (k : string) (d : json) : res json :=
  match o with
  | JObj kvs => match obj_find k kvs with Some v => Ret v | None => Ret d end
  | _ => Exc AttributeError
  end.

(** [o[k]] *)
Definition py_getitem (o : json) (k : string) : res json :=
  match o with
  | JObj kvs => match obj_find k kvs with Some v => Ret v | None => Exc (KeyError k) end
  | _ => Exc TypeError
  end.

(** Substring test of Python's [in] on strings. *)
Fixpoint substring_of (needle hay : string) : bool :=
  String.prefix needle hay ||
  match hay with
  | EmptyString => false
  | String _ rest => substring_of needle rest
  end.

(** [k in o] for a string [k]. *)
Definition py_contains (k : string) (o : json) : res bool :=
  match o with
  | JObj kvs => Ret (if obj_find k kvs then true else false)
  | JArr l => Ret (existsb (fun v => match v with JStr s => String.eqb s k | _ => false end) l)
  | JStr s => Ret (substring_of k s)
  | _ => Exc TypeError
  end.

(** Python iteration over a decoded value ([for x in v]). *)
Fixpoint string_chars (s : string) : list json :=
  match s with
  | EmptyString => []
  | String c rest => JStr (String c EmptyString) :: string_chars rest
  end.

Definition py_iter (v : json) : res (list json) :=
  match v with
  | JArr l => Ret l
  | JStr s => Ret (string_chars s)
  | JObj kvs => Ret (map (fun kv => JStr (fst kv)) kvs)
  | _ => Exc TypeError
  end.

(** The characters CPython's [repr] of a string treats specially. *)
Definition backslash : Ascii.ascii := Ascii.ascii_of_nat 92.
Definition single_quote : Ascii.ascii := Ascii.ascii_of_nat 39.
Definition double_quote : Ascii.ascii := Ascii.ascii_of_nat 34.

(** A lowercase hexadecimal digit ([n < 16]). *)
Definition hex_digit (n : nat) : Ascii.ascii :=
  Ascii.ascii_of_nat (if (n <? 10)%nat then 48 + n else 87 + n)%nat.

(** [%02x] of a character code below 256. *)
Definition hex2 (n : nat) : string :=
  String (hex_digit (n / 16)) (String (hex_digit (n mod 16)) EmptyString).

(** One character of [repr(s)] quoted with [quote] ([unicode_repr]):
    the quote and the backslash are escaped, tab, newline and carriage
    return get their short escapes, control characters, DEL and the
    non-printable Latin-1 characters (U+0080 to U+00A0 and U+00AD) get
    [\xhh], every other character is kept. *)
Definition repr_char (quote c : Ascii.ascii) : string :=
  let n := Ascii.nat_of_ascii c in
  if Ascii.eqb c quote || Ascii.eqb c backslash then String backslash (String c EmptyString)
  else if (n =? 9)%nat then String backslash "t"
  else if (n =? 10)%nat then String backslash "n"
  else if (n =? 13)%nat then String backslash "r"
  else if (n <? 32)%nat || (n =? 127)%nat || ((128 <=? n)%nat && (n <=? 160)%nat) || (n =? 173)%nat
  then String backslash ("x" ++ hex2 n)
  else String c EmptyString.

Fixpoint repr_chars (quote : Ascii.ascii) (s : string) : string :=
  match s with
  | EmptyString => EmptyString
  | String c rest => repr_char quote c ++ repr_chars quote rest
  end.

Fixpoint has_char (c : Ascii.ascii) (s : string) : bool :=
  match s with
  | EmptyString => false
  | String c' rest => Ascii.eqb c c' || has_char c rest
  end.

(** [repr(s)] of a string: single quotes, unless the string contains a
    single quote and no double quote. *)
Definition py_repr_str (s : string) : string :=
  let quote := if has_char single_quote s && negb (has_char double_quote s)
               then double_quote else single_quote in
  String quote (repr_chars quote s ++ String quote EmptyString).

(** The items of the dict a decoded object denotes, in insertion order: a
    repeated key keeps its first position and takes the last value. *)
Definition dict_items {A} (kvs : list (string * A)) : list (string * A) :=
  fold_left (fun acc kv =>
               if existsb (fun kv' => String.eqb (fst kv') (fst kv)) acc
               then map (fun kv' => if String.eqb (fst kv') (fst kv) then kv else kv') acc
               else acc ++ [kv]) kvs [].

(** [repr(v)] of a decoded value. *)
Fixpoint py_repr (v : json) : string :=
  match v with
  | JNull => "None"
  | JBool true => "True"
  | JBool false => "False"
  | JNum n => pretty n
  | JStr s => py_repr_str s
  | JArr l => ("[" ++ String.concat ", " (map py_repr l) ++ "]")%string
  | JObj kvs =>
      ("{" ++ String.concat ", "
              (map (fun kv => py_repr_str (fst kv) ++ ": " ++ snd kv)
                   (dict_items (map (fun kv => (fst kv, py_repr (snd kv))) kvs))) ++ "}")%string
  end.

(** [str(v)]: the identity on strings, [repr] on every other value. *)
Definition py_str (v : json) : string :=
  match v with
  | JStr s => s
  | _ => py_repr v
  end.

(** Integer view of a value in [+]: Python's bool is an int. *)
Definition py_int (v : json) : res Z :=
  match v with
  | JNum n => Ret n
  | JBool b => Ret (if b then 1 else 0)
  | _ => Exc TypeError
  end.

(** [a // b] on ints. *)
Definition py_floordiv (a b : Z) : res Z :=
  if Z.eqb b 0 then Exc ZeroDivisionError else Ret (a / b).

(** ** Request parameters: Python dicts with insertion order *)

Definition dict := list (string * json).

Fixpoint dict_set (d : dict) (k : string) (v : json) : dict :=
  match d with
  | [] => [(k, v)]
  | (k', v') :: rest =>
      if String.eqb k' k then (k', v) :: rest else (k', v') :: dict_set rest k v
  end.

(** [d1.update(d2)] *)
Definition dict_update (d1 d2 : dict) : dict :=
  fold_left (fun d kv => dict_set d (fst kv) (snd kv)) d2 d1.

Fixpoint dict_get (d : dict) (k : string) : option json :=
  match d with
  | [] => None
  | (k', v) :: rest => if String.eqb k' k then Some v else dict_get rest k
  end.

(** A Transport GET: a path and optional query parameters. *)
Record request : Type := Get { req_path : string; req_params : option dict }.

(** ** Paginator objects *)

(** [PaginationInfo]: every field holds the raw decoded value. *)
Record PaginationInfo : Type := mkPaginationInfo {
  pi_page : json;
  pi_per_page : json;
  pi_count : json;
  pi_next_page : json;
  pi_previous_page : json;
  pi_has_more : json
}.

(** [PaginationInfo.from_response] *)
Definition from_response (r : json) : res PaginationInfo :=
  match py_get r "page" JNull, py_get r "per_page" JNull, py_get r "count" JNull,
        py_get r "next_page" JNull, py_get r "previous_page" JNull,
        py_get r "has_more" JNull with
  | Ret a, Ret b, Ret c, Ret d, Ret e, Ret f => Ret (mkPaginationInfo a b c d e f)
  | _, _, _, _, _, _ => Exc AttributeError
  end.

(** The concrete class of a paginator.  The factory [ZendeskPaginator]
    builds subclasses of [OffsetPaginator] and [CursorPaginator] that only
    override [_extract_items] with the key of the item list. *)
Inductive pkind : Type :=
| OffsetPaginator (items_key : string)
| CursorPaginator (items_key : string)
| SearchExportPaginator.

(** The attributes of a paginator object.  [next_cursor] and [has_started]
    exist on [CursorPaginator] and its subclass; [query], [filter_type] and
    [next_url] on [SearchExportPaginator]. *)
Record paginator : Type := mkPaginator {
  kind : pkind;
  path : string;
  params : dict;
  per_page : Z;
  current_page : Z;
  pagination_info : option PaginationInfo;
  next_cursor : json;
  has_started : bool;
  query : string;
  filter_type : string;
  next_url : json
}.

(** [Paginator.__init__] and the subclass constructors. *)
Definition new_offset (key path : string) (ps : dict) (pp : Z) : paginator :=
  mkPaginator (OffsetPaginator key) path ps pp 1 None JNull false "" "" JNull.

Definition new_cursor (key path : string) (ps : dict) (pp : Z) : paginator :=
  mkPaginator (CursorPaginator key) path ps pp 1 None JNull false "" "" JNull.

Definition new_search_export (q ft : string) (page_size : Z) : paginator :=
  mkPaginator SearchExportPaginator "search/export.json" [] page_size 1 None JNull false
    q ft JNull.

(** [ZendeskPaginator.create_search_paginator] *)
Definition create_search_paginator (q : string) (pp : Z) : paginator :=
  new_offset "results" "search.json" [("query", JStr q)] pp.

(** Attribute assignments. *)
Definition set_current_page (p : paginator) (n : Z) : paginator :=
  mkPaginator (kind p) (path p) (params p) (per_page p) n (pagination_info p)
    (next_cursor p) (has_started p) (query p) (filter_type p) (next_url p).

Definition set_pagination_info (p : paginator) (i : option PaginationInfo) : paginator :=
  mkPaginator (kind p) (path p) (params p) (per_page p) (current_page p) i
    (next_cursor p) (has_started p) (query p) (filter_type p) (next_url p).

Definition set_next_cursor (p : paginator) (c : json) : paginator :=
  mkPaginator (kind p) (path p) (params p) (per_page p) (current_page p)
    (pagination_info p) c (has_started p) (query p) (filter_type p) (next_url p).

Definition set_has_started (p : paginator) (b : bool) : paginator :=
  mkPaginator (kind p) (path p) (params p) (per_page p) (current_page p)
    (pagination_info p) (next_cursor p) b (query p) (filter_type p) (next_url p).

Definition set_next_url (p : paginator) (u : json) : paginator :=
  mkPaginator (kind p) (path p) (params p) (per_page p) (current_page p)
    (pagination_info p) (next_cursor p) (has_started p) (query p) (filter_type p) u.

(** ** The world and the monad *)

Record world : Type := mkWorld {
  pag : paginator;
  calls : list request  (** Transport GETs issued so far, oldest first *)
}.

Definition M (A : Type) : Type := world -> world * res A.

Definition mret {A} (a : A) : M A := fun w => (w, Ret a).
Definition mraise {A} (e : exn) : M A := fun w => (w, Exc e).
Definition mstuck {A} : M A := fun w => (w, Stuck).

Definition mbind {A B} (m : M A) (k : A -> M B) : M B :=
  fun w => match m w with
           | (w', Ret a) => k a w'
           | (w', Exc e) => (w', Exc e)
           | (w', Stuck) => (w', Stuck)
           end.

Notation "'let!' x := m 'in' k" := (mbind m (fun x => k))
  (at level 200, x name, m at level 100, k at level 200).
Notation "m ;; k" := (mbind m (fun _ => k)) (at level 100, right associativity).

(** Lift a pure result. *)
Definition lift {A} (r : res A) : M A := fun w => (w, r).

(** [try: m except Exception as e: ...]: the handler gets [inr e]. *)
Definition mtry {A} (m : M A) : M (A + exn) :=
  fun w => match m w with
           | (w', Ret a) => (w', Ret (inl a))
           | (w', Exc e) => (w', Ret (inr e))
           | (w', Stuck) => (w', Stuck)
           end.

Definition get_pag : M paginator := fun w => (w, Ret (pag w)).

Definition modify_pag (f : paginator -> paginator) : M unit :=
  fun w => (mkWorld (f (pag w)) (calls w), Ret tt).

(** ** Domain records

    Modelled from the spec: the pydantic models [models/ticket.py],
    [models/user.py] and [models/comment.py] are not in the repository
    snapshot.  A record keeps the fields the enrichment code reads, each an
    optional integer or an optional list of integers, and the raw decoded
    object.  Validation ([Ticket( **data)]) accepts an absent or [null]
    field as [None] and an integer (or a list of integers) as its value, and
    fails on anything else; [**data] on a non-object is a [TypeError]. *)

Record Ticket : Type := mkTicket {
  id : option Z;
  requester_id : option Z;
  assignee_id : option Z;
  submitter_id : option Z;
  collaborator_ids : option (list Z);
  follower_ids : option (list Z);
  ticket_data : json
}.

Record User : Type := mkUser { user_id : option Z; user_data : json }.

Record Comment : Type := mkComment { author_id : option Z; comment_data : json }.

(** [EnrichedTicket(ticket=..., comments=..., users=...)] *)
Record EnrichedTicket : Type := mkEnrichedTicket {
  ticket : Ticket;
  comments : list Comment;
  users : gmap Z User
}.

Definition opt_int_field (kvs : list (string * json)) (k : string) : res (option Z) :=
  match obj_find k kvs with
  | None | Some JNull => Ret None
  | Some (JNum n) => Ret (Some n)
  | Some _ => Exc ValidationError
  end.

Fixpoint ints_of (l : list json) : option (list Z) :=
  match l with
  | [] => Some []
  | JNum n :: rest => option_map (cons n) (ints_of rest)
  | _ :: _ => None
  end.

Definition opt_int_list_field (kvs : list (string * json)) (k : string) : res (option (list Z)) :=
  match obj_find k kvs with
  | None | Some JNull => Ret None
  | Some (JArr l) => match ints_of l with Some ns => Ret (Some ns) | None => Exc ValidationError end
  | Some _ => Exc ValidationError
  end.

(** [Ticket( **data)] *)
Definition parse_ticket (data : json) : res Ticket :=
  match data with
  | JObj kvs =>
      match opt_int_field kvs "id", opt_int_field kvs "requester_id",
            opt_int_field kvs "assignee_id", opt_int_field kvs "submitter_id",
            opt_int_list_field kvs "collaborator_ids", opt_int_list_field kvs "follower_ids" with
      | Ret i, Ret r, Ret a, Ret s, Ret c, Ret f => Ret (mkTicket i r a s c f data)
      | _, _, _, _, _, _ => Exc ValidationError
      end
  | _ => Exc TypeError
  end.

(** [User( **data)] *)
Definition parse_user (data : json) : res User :=
  match data with
  | JObj kvs =>
      match opt_int_field kvs "id" with
      | Ret i => Ret (mkUser i data)
      | _ => Exc ValidationError
      end
  | _ => Exc TypeError
  end.

(** [Comment( **data)] *)
Definition parse_comment (data : json) : res Comment :=
  match data with
  | JObj kvs =>
      match opt_int_field kvs "author_id" with
      | Ret i => Ret (mkComment i data)
      | _ => Exc ValidationError
      end
  | _ => Exc TypeError
  end.

(** [[f(x) for x in xs]] where [f] may raise. *)
Fixpoint map_res {A B} (f : A -> res B) (xs : list A) : res (list B) :=
  match xs with
  | [] => Ret []
  | x :: rest =>
      match f x with
      | Ret y => match map_res f rest with Ret ys => Ret (y :: ys) | Exc e => Exc e | Stuck => Stuck end
      | Exc e => Exc e
      | Stuck => Stuck
      end
  end.

(** [TicketsClient._extract_users_from_response] *)
Definition extract_users_from_response (response : json) : res (gmap Z User) :=
  match py_get response "users" (JArr []) with
  | Ret v =>
      match py_iter v with
      | Ret datas =>
          match map_res parse_user datas with
          | Ret us =>
              Ret (fold_left (fun (m : gmap Z User) u =>
                                match user_id u with Some i => <[i := u]> m | None => m end)
                             us ∅)
          | Exc e => Exc e
          | Stuck => Stuck
          end
      | Exc e => Exc e
      | Stuck => Stuck
      end
  | Exc e => Exc e
  | Stuck => Stuck
  end.

(** Python truthiness of an optional int and of an optional list. *)
Definition truthy_id (o : option Z) : bool :=
  match o with Some n => negb (Z.eqb n 0) | None => false end.

Definition truthy_ids (o : option (list Z)) : list Z :=
  match o with Some ((_ :: _) as l) => l | _ => [] end.

(** The ids one ticket adds to the set in [_collect_user_ids_from_tickets]
    (and in the per-ticket loop of [_build_enriched_tickets]). *)
Definition ticket_user_ids (t : Ticket) : gset Z :=
  (if truthy_id (requester_id t) then {[default 0 (requester_id t)]} else ∅) ∪
  (if truthy_id (assignee_id t) then {[default 0 (assignee_id t)]} else ∅) ∪
  (if truthy_id (submitter_id t) then {[default 0 (submitter_id t)]} else ∅) ∪
  list_to_set (truthy_ids (collaborator_ids t)) ∪
  list_to_set (truthy_ids (follower_ids t)).

(** Paths of the enrichment requests. *)
Definition ticket_request (ticket_id : Z) : request :=
  Get ("tickets/" ++ pretty ticket_id ++ ".json")%string (Some [("include", JStr "users")]).

Definition comments_request (ticket_id : Z) : request :=
  Get ("tickets/" ++ pretty ticket_id ++ "/comments.json")%string (Some [("include", JStr "users")]).

Definition show_many_request (ids : list Z) : request :=
  Get ("users/show_many.json?ids=" ++ String.concat "," (map pretty ids))%string None.

(** ** Transport scenarios used to evaluate the model *)

(** Every GET raises an HTTP error with the given status. *)
Definition srv_http_error (code : Z) (_ : list request) (_ : request) : exn + json :=
  inl (ZendeskHTTPException code "HTTP error").

(** Every GET answers an empty user page with no pagination fields. *)
Definition srv_empty_users (_ : list request) (_ : request) : exn + json :=
  inr (JObj [("users", JArr [])]).

(** The paginator of [ZendeskPaginator.create_users_paginator]. *)
Definition users_paginator (pp : Z) : paginator :=
  new_offset "users" "users.json" [] pp.

(** A search result of type ticket with the given id. *)
Definition ticket_result (n : Z) : json :=
  JObj [("id", JNum n); ("result_type", JStr "ticket")].

Definition ten_ticket_results : list json := map ticket_result [1;2;3;4;5;6;7;8;9;10].

(** Every GET answers a search page of ten tickets, reporting [count]. *)
Definition srv_ticket_page (count : Z) (_ : list request) (_ : request) : exn + json :=
  inr (JObj [("results", JArr ten_ticket_results); ("count", JNum count)]).

(** An unused initial paginator: the generators install their own. *)
Definition no_paginator : paginator := users_paginator 100.

Section Client.

(** The Transport collaborator: a response, or a raised exception, for a
    GET request, given the requests already issued. *)
Variable server : list request -> request -> exn + json.

(** [http_client.get(path, params=...)] *)
Definition http_get (r : request) : M json :=
  fun w => let w' := mkWorld (pag w) (calls w ++ [r]) in
           match server (calls w) r with
           | inl e => (w', Exc e)
           | inr body => (w', Ret body)
           end.

(** ** Paginator methods, dispatched on the concrete class *)

(** [_get_page_params] *)
Definition get_page_params (p : paginator) : dict :=
  match kind p with
  | OffsetPaginator _ => [("page", JNum (current_page p)); ("per_page", JNum (per_page p))]
  | CursorPaginator _ =>
      [("per_page", JNum (per_page p))] ++
      (if truthy (next_cursor p) && has_started p then [("cursor", next_cursor p)] else [])
  | SearchExportPaginator =>
      [("query", JStr (query p)); ("filter[type]", JStr (filter_type p));
       ("page[size]", JNum (per_page p))] ++
      (if truthy (next_cursor p) && has_started p then [("page[after]", next_cursor p)] else [])
  end.

(** [Paginator._build_page_params] *)
Definition build_page_params (p : paginator) : dict :=
  dict_update (params p) (get_page_params p).

(** [_fetch_page]: the same in every class. *)
Definition fetch_page (page_params : dict) : M json :=
  let! p := get_pag in
  http_get (Get (path p) (Some page_params)).

(** [_has_more_pages]: returns the raw value, tested with [if not ...]. *)
Definition has_more_pages : M json :=
  let! p := get_pag in
  match kind p with
  | OffsetPaginator _ =>
      match pagination_info p with
      | None => mret (JBool false)
      | Some i =>
          if negb (is_none (pi_has_more i)) then mret (pi_has_more i)
          else if negb (is_none (pi_count i)) then
            let! c := lift (py_int (pi_count i)) in
            let! total_pages := lift (py_floordiv (c + per_page p - 1) (per_page p)) in
            mret (JBool (current_page p <? total_pages))
          else mret (JBool true)
      end
  | CursorPaginator _ | SearchExportPaginator =>
      if negb (has_started p) then mret (JBool true)
      else match pagination_info p with
           | Some i => if negb (is_none (pi_has_more i)) then mret (pi_has_more i)
                       else mret (JBool (negb (is_none (next_cursor p))))
           | None => mret (JBool (negb (is_none (next_cursor p))))
           end
  end.

(** [_update_pagination_state]: updates the attributes one assignment at a
    time and returns [self._has_more_pages()]. *)
Definition update_pagination_state (response : json) : M json :=
  let! p := get_pag in
  match kind p with
  | OffsetPaginator _ =>
      let! info := lift (from_response response) in
      modify_pag (fun p => set_pagination_info p (Some info)) ;;
      has_more_pages
  | CursorPaginator _ =>
      let! info := lift (from_response response) in
      modify_pag (fun p => set_pagination_info p (Some info)) ;;
      let! nc := lift (py_get response "next_cursor" JNull) in
      let! ac := lift (py_get response "after_cursor" JNull) in
      modify_pag (fun p => set_next_cursor p (py_or nc ac)) ;;
      (if negb (truthy (py_or nc ac)) then
         let! links := lift (py_get response "links" (JObj [])) in
         let! b := lift (py_contains "next" links) in
         if b then
           let! v := lift (py_getitem links "next") in
           modify_pag (fun p => set_next_cursor p (JStr (py_str v)))
         else mret tt
       else mret tt) ;;
      modify_pag (fun p => set_has_started p true) ;;
      has_more_pages
  | SearchExportPaginator =>
      let! links := lift (py_get response "links" (JObj [])) in
      let! meta := lift (py_get response "meta" (JObj [])) in
      let! nu := lift (py_get links "next" JNull) in
      modify_pag (fun p => set_next_url p nu) ;;
      let! ac := lift (py_get meta "after_cursor" JNull) in
      modify_pag (fun p => set_next_cursor p ac) ;;
      let! hm := lift (py_get meta "has_more" (JBool false)) in
      modify_pag (fun p => set_pagination_info p
                             (Some (mkPaginationInfo JNull JNull JNull nu JNull hm))) ;;
      modify_pag (fun p => set_has_started p true) ;;
      has_more_pages
  end.

(** [_extract_items]: the raw item list of the response. *)
Definition extract_items (response : json) : M json :=
  let! p := get_pag in
  match kind p with
  | OffsetPaginator key | CursorPaginator key => lift (py_get response key (JArr []))
  | SearchExportPaginator => lift (py_get response "results" (JArr []))
  end.

(** [_advance_to_next_page] *)
Definition advance_to_next_page : M unit :=
  let! p := get_pag in
  match kind p with
  | OffsetPaginator _ => modify_pag (fun p => set_current_page p (current_page p + 1))
  | CursorPaginator _ | SearchExportPaginator => mret tt
  end.

(** [Paginator.get_page(page=None)] *)
Definition get_page (page : option Z) : M json :=
  (match page with
   | Some n => modify_pag (fun p => set_current_page p n)
   | None => mret tt
   end) ;;
  let! p := get_pag in
  let! response := fetch_page (build_page_params p) in
  update_pagination_state response ;;
  extract_items response.

(** ** [Paginator.__aiter__] as a state machine *)

Inductive aiter_state : Type :=
| AStart                      (** not started yet *)
| AFetch                      (** at the top of the [while True] loop *)
| AItems (rest : list json)   (** inside [for item in items] *)
| ADone.                      (** returned or raised *)

(** The [except] clauses of [__aiter__]: a 422 breaks the loop, every other
    exception is re-raised as a pagination error with the page context. *)
Definition aiter_handler (e : exn) : M (aiter_state * option json) :=
  let reraise :=
    let! p := get_pag in
    mraise (ZendeskPaginationException e (current_page p) (per_page p)) in
  match e with
  | ZendeskHTTPException status_code _ =>
      if Z.eqb status_code 422 then mret (ADone, None) else reraise
  | _ => reraise
  end.

(** One [__anext__] call: runs the generator to its next [yield] ([Some]),
    or to its end ([None]). *)
Fixpoint aiter_next (fuel : nat) (st : aiter_state) : M (aiter_state * option json) :=
  match fuel with
  | O => mstuck
  | S f =>
      match st with
      | AStart =>
          modify_pag (fun p => set_current_page p 1) ;;
          aiter_next f AFetch
      | AFetch =>
          let! r := mtry (let! items := get_page None in lift (py_iter items)) in
          match r with
          | inl l => aiter_next f (AItems l)
          | inr e => aiter_handler e
          end
      | AItems (x :: rest) => mret (AItems rest, Some x)
      | AItems [] =>
          let! r := mtry has_more_pages in
          match r with
          | inl b =>
              if negb (truthy b) then mret (ADone, None)
              else advance_to_next_page ;; aiter_next f AFetch
          | inr e => aiter_handler e
          end
      | ADone => mret (ADone, None)
      end
  end.

(** [[x async for x in paginator]]: pulls until the generator ends. *)
Fixpoint aiter_drain (fuel : nat) (st : aiter_state) : M (list json) :=
  match fuel with
  | O => mstuck
  | S f =>
      let! step := aiter_next fuel st in
      match snd step with
      | None => mret []
      | Some x => let! xs := aiter_drain f (fst step) in mret (x :: xs)
      end
  end.


(** The request [get_page()] sends from a paginator state. *)
Definition page_request (p : paginator) : request :=
  Get (path p) (Some (build_page_params p)).

(** The exception [__aiter__] treats as the end of the stream. *)
Definition is_422 (e : exn) : bool :=
  match e with ZendeskHTTPException c _ => Z.eqb c 422 | _ => false end.

(** The [PaginationInfo] of a response that reports neither [has_more]
    nor [count] (nor any other pagination field). *)
Definition info_without_signal : PaginationInfo :=
  mkPaginationInfo JNull JNull JNull JNull JNull JNull.

(** ** Enrichment ([TicketsClient]) *)

(** The iteration order of a Python [set] of ints: an unspecified
    function of its contents. *)
Variable set_to_list : gset Z -> list Z.

(** The order in which [n] concurrent comment fetches complete: an
    unspecified schedule of the task indices [0 .. n-1]. *)
Variable completion_order : nat -> list nat.

(** [_fetch_comments_with_users] *)
Definition fetch_comments_with_users (ticket_id : Z) : M (list Comment * gmap Z User) :=
  let! response := http_get (comments_request ticket_id) in
  let! raw := lift (py_get response "comments" (JArr [])) in
  let! datas := lift (py_iter raw) in
  let! cs := lift (map_res parse_comment datas) in
  let! us := lift (extract_users_from_response response) in
  mret (cs, us).

(** [_build_enriched_ticket]: [{**ticket_users, **comment_users}] is the
    left-biased union [comment_users ∪ ticket_users]. *)
Definition build_enriched_ticket (t : Ticket) (ticket_users : gmap Z User) : M EnrichedTicket :=
  match id t with
  | None => mraise (ValueError "Ticket must have an ID to fetch full data")
  | Some i =>
      let! r := fetch_comments_with_users i in
      mret (mkEnrichedTicket t (fst r) (snd r ∪ ticket_users))
  end.

(** [get_enriched] *)
Definition get_enriched (ticket_id : Z) : M EnrichedTicket :=
  let! response := http_get (ticket_request ticket_id) in
  let! data := lift (py_getitem response "ticket") in
  let! t := lift (parse_ticket data) in
  let! ticket_users := lift (extract_users_from_response response) in
  build_enriched_ticket t ticket_users.

(** [_collect_user_ids_from_tickets]: [list(user_ids)] of the set. *)
Definition collect_user_ids_from_tickets (tickets : list Ticket) : list Z :=
  set_to_list (fold_left (fun s t => s ∪ ticket_user_ids t) tickets ∅).

(** [_fetch_users_batch]: [list(set(user_ids))[:100]]. *)
Definition fetch_users_batch (ids : list Z) : M (gmap Z User) :=
  match ids with
  | [] => mret ∅
  | _ :: _ =>
      let unique_ids := take 100 (set_to_list (list_to_set ids)) in
      let! response := http_get (show_many_request unique_ids) in
      lift (extract_users_from_response response)
  end.

(** [asyncio.gather]: the tasks run to completion in [order]; each result
    goes to its task's slot.  If a task raised, the first exception in
    completion order propagates. *)
Fixpoint run_tasks {A} (order : list nat) (tasks : list (M A)) : M (list (nat * (A + exn))) :=
  match order with
  | [] => mret []
  | k :: rest =>
      match tasks !! k with
      | None => mstuck
      | Some task =>
          let! r := mtry task in
          let! rs := run_tasks rest tasks in
          mret ((k, r) :: rs)
      end
  end.

Definition first_exn {A} (rs : list (nat * (A + exn))) : option exn :=
  match find (fun kr => match snd kr with inr _ => true | inl _ => false end) rs with
  | Some (_, inr e) => Some e
  | _ => None
  end.

Definition slot_result {A} (rs : list (nat * (A + exn))) (k : nat) : option A :=
  match find (fun kr => Nat.eqb (fst kr) k) rs with
  | Some (_, inl a) => Some a
  | _ => None
  end.

Definition gather {A} (order : list nat) (tasks : list (M A)) : M (list A) :=
  let! rs := run_tasks order tasks in
  match first_exn rs with
  | Some e => mraise e
  | None =>
      match mapM (slot_result rs) (seq 0 (length tasks)) with
      | Some l => mret l
      | None => mstuck
      end
  end.

Definition has_id (t : Ticket) : bool :=
  match id t with Some _ => true | None => false end.

(** The entity-scoped user map of one ticket in [_build_enriched_tickets]. *)
Definition scoped_users (t : Ticket) (ticket_users : gmap Z User) : gmap Z User :=
  filter (fun kv : Z * User => kv.1 ∈ ticket_user_ids t) ticket_users.

(** [_build_enriched_tickets] *)
Definition build_enriched_tickets (tickets : list Ticket) (ticket_users : gmap Z User)
  : M (list EnrichedTicket) :=
  match tickets with
  | [] => mret []
  | _ :: _ =>
      let valid_tickets := List.filter has_id tickets in
      match valid_tickets with
      | [] => mret []
      | _ :: _ =>
          let! results :=
            gather (completion_order (length valid_tickets))
                   (map (fun t => fetch_comments_with_users (default 0 (id t))) valid_tickets) in
          mret (zip_with (fun t r => mkEnrichedTicket t (fst r) (snd r ∪ scoped_users t ticket_users))
                         valid_tickets results)
      end
  end.

(** ** Limited search iterators *)

(** The paginator [SearchClient.tickets] iterates: [_resolve_query] with
    [force_type=TICKET] prefixes a raw query string, [all] keeps it. *)
Definition tickets_paginator (q : string) (pp : Z) : paginator :=
  create_search_paginator ("type:ticket " ++ q)%string pp.

(** [if limit and count >= limit] *)
Definition limit_reached (limit : option Z) (count : Z) : bool :=
  match limit with
  | Some l => negb (Z.eqb l 0) && (l <=? count)
  | None => false
  end.

(** The generator [SearchClient.tickets]: [TkRun] holds the inner
    paginator iteration and [count]. *)
Inductive tickets_state : Type :=
| TkStart (q : string) (pp : Z)
| TkRun (inner : aiter_state) (count : Z)
| TkDone.

Fixpoint tickets_next (limit : option Z) (fuel : nat) (st : tickets_state)
  : M (tickets_state * option Ticket) :=
  match fuel with
  | O => mstuck
  | S f =>
      match st with
      | TkStart q pp =>
          modify_pag (fun _ => tickets_paginator q pp) ;;
          tickets_next limit f (TkRun AStart 0)
      | TkRun inner count =>
          let! step := aiter_next fuel inner in
          match snd step with
          | None => mret (TkDone, None)
          | Some item =>
              let! rt := lift (py_get item "result_type" JNull) in
              if match rt with JStr s => String.eqb s "ticket" | _ => false end then
                let! t := lift (parse_ticket item) in
                let count' := count + 1 in
                if limit_reached limit count' then mret (TkDone, Some t)
                else mret (TkRun (fst step) count', Some t)
              else tickets_next limit f (TkRun (fst step) count)
          end
      | TkDone => mret (TkDone, None)
      end
  end.

Fixpoint tickets_drain (limit : option Z) (fuel : nat) (st : tickets_state) : M (list Ticket) :=
  match fuel with
  | O => mstuck
  | S f =>
      let! step := tickets_next limit fuel st in
      match snd step with
      | None => mret []
      | Some t => let! ts := tickets_drain limit f (fst step) in mret (t :: ts)
      end
  end.

(** The generator [TicketsClient._paginate_enriched]: every exception
    ends it. *)
Inductive pages_state : Type :=
| PgFetch       (** at the top of the [while True] loop *)
| PgAfterYield  (** after [yield items], or after an empty page *)
| PgDone.

Fixpoint paginate_enriched_next (fuel : nat) (st : pages_state) : M (pages_state * option json) :=
  match fuel with
  | O => mstuck
  | S f =>
      match st with
      | PgFetch =>
          let! r := mtry (get_page None) in
          match r with
          | inr _ => mret (PgDone, None)
          | inl items =>
              if truthy items then mret (PgAfterYield, Some items)
              else paginate_enriched_next f PgAfterYield
          end
      | PgAfterYield =>
          let! r := mtry has_more_pages in
          match r with
          | inr _ => mret (PgDone, None)
          | inl b =>
              if negb (truthy b) then mret (PgDone, None)
              else advance_to_next_page ;; paginate_enriched_next f PgFetch
          end
      | PgDone => mret (PgDone, None)
      end
  end.

(** [[Ticket( **r) for r in page_data if r.get("result_type") == "ticket"]] *)
Fixpoint page_tickets (rs : list json) : res (list Ticket) :=
  match rs with
  | [] => Ret []
  | r :: rest =>
      match py_get r "result_type" JNull with
      | Ret (JStr "ticket") =>
          match parse_ticket r, page_tickets rest with
          | Ret t, Ret ts => Ret (t :: ts)
          | Exc e, _ => Exc e
          | Ret _, Exc e => Exc e
          | _, _ => Stuck
          end
      | Ret _ => page_tickets rest
      | Exc e => Exc e
      | Stuck => Stuck
      end
  end.

(** The generator [TicketsClient.search_enriched]: [SeRun] holds the page
    generator, [count] and the rest of the current enriched batch. *)
Inductive search_enriched_state : Type :=
| SeStart (q : string) (pp : Z)
| SeRun (pages : pages_state) (count : Z) (batch : list EnrichedTicket)
| SeDone.

Fixpoint search_enriched_next (limit : option Z) (fuel : nat) (st : search_enriched_state)
  : M (search_enriched_state * option EnrichedTicket) :=
  match fuel with
  | O => mstuck
  | S f =>
      match st with
      | SeStart q pp =>
          modify_pag (fun _ => tickets_paginator q pp) ;;
          search_enriched_next limit f (SeRun PgFetch 0 [])
      | SeRun pages count (e :: rest) =>
          let count' := count + 1 in
          if limit_reached limit count' then mret (SeDone, Some e)
          else mret (SeRun pages count' rest, Some e)
      | SeRun pages count [] =>
          let! step := paginate_enriched_next fuel pages in
          match snd step with
          | None => mret (SeDone, None)
          | Some page_data =>
              let! rs := lift (py_iter page_data) in
              let! tickets := lift (page_tickets rs) in
              match tickets with
              | [] => search_enriched_next limit f (SeRun (fst step) count [])
              | _ :: _ =>
                  let user_ids := collect_user_ids_from_tickets tickets in
                  let! ticket_users := fetch_users_batch user_ids in
                  let! batch := build_enriched_tickets tickets ticket_users in
                  search_enriched_next limit f (SeRun (fst step) count batch)
              end
          end
      | SeDone => mret (SeDone, None)
      end
  end.

Fixpoint search_enriched_drain (limit : option Z) (fuel : nat) (st : search_enriched_state)
  : M (list EnrichedTicket) :=
  match fuel with
  | O => mstuck
  | S f =>
      let! step := search_enriched_next limit fuel st in
      match snd step with
      | None => mret []
      | Some e => let! es := search_enriched_drain limit f (fst step) in mret (e :: es)
      end
  end.

(** ** Callers of the enrichment helpers *)

(** The list-by-relation GETs of [for_organization_enriched] and
    [for_user_enriched]. *)
Definition org_tickets_request (org_id pp : Z) : request :=
  Get ("organizations/" ++ pretty org_id ++ "/tickets.json")%string
      (Some [("per_page", JNum pp); ("include", JStr "users")]).

Definition user_tickets_request (user_id pp : Z) : request :=
  Get ("users/" ++ pretty user_id ++ "/tickets/requested.json")%string
      (Some [("per_page", JNum pp); ("include", JStr "users")]).

(** The common body of [for_organization_enriched] and [for_user_enriched]:
    list the tickets with sideloaded users, then [_build_enriched_tickets]. *)
Definition list_enriched (r : request) : M (list EnrichedTicket) :=
  let! response := http_get r in
  let! raw := lift (py_get response "tickets" (JArr [])) in
  let! datas := lift (py_iter raw) in
  let! tickets := lift (map_res parse_ticket datas) in
  let! ticket_users := lift (extract_users_from_response response) in
  build_enriched_tickets tickets ticket_users.

(** [TicketsClient.for_organization_enriched] *)
Definition for_organization_enriched (org_id pp : Z) : M (list EnrichedTicket) :=
  list_enriched (org_tickets_request org_id pp).

(** [TicketsClient.for_user_enriched] *)
Definition for_user_enriched (user_id pp : Z) : M (list EnrichedTicket) :=
  list_enriched (user_tickets_request user_id pp).

(** The single search GET of [ZendeskClient.search_enriched_tickets]. *)
Definition search_once_request (q : string) (pp : Z) : request :=
  Get "search.json" (Some [("query", JStr ("type:ticket " ++ q)%string); ("per_page", JNum pp)]).

(** [ZendeskClient.search_enriched_tickets] (client.py): one search page,
    then the same helpers as [TicketsClient], which [client.py] repeats
    verbatim. *)
Definition search_enriched_tickets (q : string) (pp : Z) : M (list EnrichedTicket) :=
  let! response := http_get (search_once_request q pp) in
  let! raw := lift (py_get response "results" (JArr [])) in
  let! rs := lift (py_iter raw) in
  let! tickets := lift (page_tickets rs) in
  match tickets with
  | [] => mret []
  | _ :: _ =>
      let user_ids := collect_user_ids_from_tickets tickets in
      let! ticket_users := fetch_users_batch user_ids in
      build_enriched_tickets tickets ticket_users
  end.

(** ** [SearchClient.export_tickets] on a raw query string *)

Inductive export_state : Type :=
| ExStart (q : string) (page_size : Z)
| ExRun (inner : aiter_state) (count : Z)
| ExDone.

Fixpoint export_tickets_next (limit : option Z) (fuel : nat) (st : export_state)
  : M (export_state * option Ticket) :=
  match fuel with
  | O => mstuck
  | S f =>
      match st with
      | ExStart q ps =>
          (** [self._resolve_query(query) or "*"] *)
          modify_pag (fun _ => new_search_export (if String.eqb q "" then "*" else q) "ticket" ps) ;;
          export_tickets_next limit f (ExRun AStart 0)
      | ExRun inner count =>
          let! step := aiter_next fuel inner in
          match snd step with
          | None => mret (ExDone, None)
          | Some item =>
              let! t := lift (parse_ticket item) in
              let count' := count + 1 in
              if limit_reached limit count' then mret (ExDone, Some t)
              else mret (ExRun (fst step) count', Some t)
          end
      | ExDone => mret (ExDone, None)
      end
  end.

Fixpoint export_tickets_drain (limit : option Z) (fuel : nat) (st : export_state)
  : M (list Ticket) :=
  match fuel with
  | O => mstuck
  | S f =>
      let! step := export_tickets_next limit fuel st in
      match snd step with
      | None => mret []
      | Some t => let! ts := export_tickets_drain limit f (fst step) in mret (t :: ts)
      end
  end.

(** The cursor variants: [CursorPaginator] and [SearchExportPaginator]. *)
Definition is_cursor_variant (k : pkind) : bool :=
  match k with OffsetPaginator _ => false | _ => true end.

(** The world with the paginator's [_current_page] overwritten. *)
Definition with_page (w : world) (n : Z) : world :=
  mkWorld (set_current_page (pag w) n) (calls w).

(** The attributes a paginator never reassigns after construction. *)
Definition frame (p : paginator) : pkind * string * dict * Z * string * string :=
  (kind p, path p, params p, per_page p, query p, filter_type p).

(** An export endpoint with two pages: the first announces more results
    behind the cursor "c1", the second is the last one. *)
Definition srv_export (log : list request) (_ : request) : exn + json :=
  match log with
  | [] => inr (JObj [("results", JArr [ticket_result 1]);
                     ("meta", JObj [("has_more", JBool true); ("after_cursor", JStr "c1")]);
                     ("links", JObj [("next", JStr "https://example.zendesk.com/next")])])
  | _ => inr (JObj [("results", JArr [ticket_result 2]);
                    ("meta", JObj [("has_more", JBool false); ("after_cursor", JNull)]);
                    ("links", JObj [])])
  end.

(** The paginator of [create_search_export_paginator("status:open")]. *)
Definition export_tickets_paginator : paginator :=
  new_search_export "status:open" "ticket" 100.

(** The parsed form of [ticket_result n]. *)
Definition ticket_of_result (n : Z) : Ticket :=
  mkTicket (Some n) None None None None None (ticket_result n).

(** The paginator of [ZendeskPaginator.create_incremental_paginator]
    for tickets. *)
Definition incremental_tickets_paginator : paginator :=
  new_cursor "tickets" "incremental/tickets.json" [("start_time", JNum 0)] 100.

(** A cursor endpoint whose first page saves the cursor "c1" and whose
    later pages are the last ones. *)
Definition srv_cursor (log : list request) (_ : request) : exn + json :=
  match log with
  | [] => inr (JObj [("tickets", JArr [ticket_result 1; ticket_result 2]);
                     ("after_cursor", JStr "c1"); ("has_more", JBool true)])
  | _ => inr (JObj [("tickets", JArr [ticket_result 3]); ("has_more", JBool false)])
  end.

(** The state of the incremental ticket paginator after its first page:
    one GET sent, the cursor "c1" saved, the traversal started. *)
Definition abandoned_cursor_world : world :=
  mkWorld (set_has_started
             (set_next_cursor
                (set_pagination_info incremental_tickets_paginator
                   (Some (mkPaginationInfo JNull JNull JNull JNull JNull (JBool true))))
                (JStr "c1")) true)
          [page_request incremental_tickets_paginator].

(** Raw user and ticket objects as the API returns them. *)
Definition user_json (n : Z) (name : string) : json :=
  JObj [("id", JNum n); ("name", JStr name)].

Definition ticket_json (n requester assignee : Z) (followers : list Z) : json :=
  JObj [("id", JNum n); ("requester_id", JNum requester); ("assignee_id", JNum assignee);
        ("follower_ids", JArr (map JNum followers))].

(** [get_enriched(7)]: the ticket response sideloads users 1 and 2, the
    comments response sideloads a newer copy of user 1. *)
Definition srv_enrich (log : list request) (_ : request) : exn + json :=
  match log with
  | [] => inr (JObj [("ticket", ticket_json 7 1 2 []);
                     ("users", JArr [user_json 1 "stale"; user_json 2 "agent"])])
  | _ => inr (JObj [("comments", JArr [JObj [("author_id", JNum 1); ("body", JStr "hi")]]);
                    ("users", JArr [user_json 1 "fresh"])])
  end.

(** Every comments GET answers one comment whose body is the requested
    path, so a record shows which fetch its comments came from. *)
Definition srv_comments (_ : list request) (r : request) : exn + json :=
  inr (JObj [("comments", JArr [JObj [("author_id", JNum 5); ("body", JStr (req_path r))]]);
             ("users", JArr [user_json 5 "author"])]).

(** Three tickets with ids 1, 2, 3 and, between them, one without an id. *)
Definition three_tickets : list Ticket :=
  [mkTicket (Some 1) (Some 10) None None None None (ticket_json 1 10 0 []);
   mkTicket None (Some 40) None None None None JNull;
   mkTicket (Some 2) (Some 20) None None None None (ticket_json 2 20 0 []);
   mkTicket (Some 3) (Some 30) None None None None (ticket_json 3 30 0 [])].

(** The comment fetches complete in reverse order: the last task first. *)
Definition reverse_completion (n : nat) : list nat := rev (seq 0 n).

(** One ticket following 150 distinct users, 1 to 150. *)
Definition many_followers_ticket : Ticket :=
  mkTicket (Some 1) None None None None (Some (map Z.of_nat (seq 1 150))) JNull.

(** A ticket that references no user. *)
Definition unassigned_ticket : Ticket :=
  mkTicket (Some 1) None None None None None JNull.

(** * Proofs *)

Lemma mbind_inv {A B} (m : M A) (k : A -> M B) (w w' : world) (r : res B) :
  mbind m k w = (w', r) ->
  (exists w1 a, m w = (w1, Ret a) /\ k a w1 = (w', r)) \/
  (exists e, m w = (w', Exc e) /\ r = Exc e) \/
  (m w = (w', Stuck) /\ r = Stuck).
Proof.
  unfold mbind. destruct (m w) as [w1 [a|e|]]; intros H.
  - left. eauto.
  - inversion H; subst. right; left. eauto.
  - inversion H; subst. right; right. auto.
Qed.

Lemma mtry_never_raises {A} (m : M A) (w w' : world) (e : exn) :
  mtry m w <> (w', Exc e).
Proof. unfold mtry. destruct (m w) as [w1 [a|e1|]]; discriminate. Qed.

Lemma aiter_handler_cases (e : exn) (w : world) :
  aiter_handler e w =
    (w, if is_422 e then Ret (ADone, None)
        else Exc (ZendeskPaginationException e (current_page (pag w)) (per_page (pag w)))).
Proof.
  destruct e as [c m| | | | | | |]; try reflexivity.
  unfold aiter_handler, is_422. destruct (Z.eqb c 422); reflexivity.
Qed.

(** Any exception that escapes one [__anext__] of the paginator is a
    pagination error that records the page and page size at that moment,
    and its cause is not a 422. *)
Lemma aiter_next_raises_pagination_error (fuel : nat) :
  forall st w w' e,
    aiter_next fuel st w = (w', Exc e) ->
    exists cause, e = ZendeskPaginationException cause (current_page (pag w')) (per_page (pag w'))
                  /\ is_422 cause = false.
Proof.
  induction fuel as [|f IH]; intros st w w' e H; [discriminate H|].
  destruct st as [| |[|x rest]|]; cbn [aiter_next] in H.
  - apply mbind_inv in H as [(w1 & a & _ & H)|[(e1 & Hm & _)|(Hm & _)]];
      [eapply IH; exact H|discriminate Hm|discriminate Hm].
  - apply mbind_inv in H as [(w1 & a & Hm & H)|[(e1 & Hm & He)|(_ & He)]].
    + destruct a as [l|e1]; [eapply IH; exact H|].
      rewrite aiter_handler_cases in H.
      destruct (is_422 e1) eqn:E422; inversion H; subst. eauto.
    + apply mtry_never_raises in Hm. contradiction.
    + discriminate He.
  - apply mbind_inv in H as [(w1 & a & Hm & H)|[(e1 & Hm & He)|(_ & He)]].
    + destruct a as [b|e1].
      * destruct (negb (truthy b)); [discriminate H|].
        apply mbind_inv in H as [(w2 & u & _ & H)|[(e2 & Hadv & He)|(Hadv & He)]].
        -- eapply IH; exact H.
        -- unfold advance_to_next_page, get_pag, mbind in Hadv.
           destruct (kind (pag w1)); discriminate Hadv.
        -- discriminate He.
      * rewrite aiter_handler_cases in H.
        destruct (is_422 e1) eqn:E422; inversion H; subst. eauto.
    + apply mtry_never_raises in Hm. contradiction.
    + discriminate He.
  - discriminate H.
  - discriminate H.
Qed.


(** ** C1 *)

(** C1: during iteration ([Paginator.__aiter__]) of every paginator, an HTTP
    error with status 422 raised by the page fetch ends the sequence without
    raising, and any other HTTP error is raised as a pagination error that
    wraps the transport error and records the current page and page size.
    The second conjunct: no exception of another shape ever escapes the
    iteration, and none whose cause is a 422. *)
Theorem aiter_http_error_semantics (f : nat) (w : world) (c : Z) (msg : string)
  (Hsrv : server (calls w) (page_request (pag w)) = inl (ZendeskHTTPException c msg)) :
  aiter_next (S f) AFetch w =
    (mkWorld (pag w) (calls w ++ [page_request (pag w)]),
     if Z.eqb c 422 then Ret (ADone, None)
     else Exc (ZendeskPaginationException (ZendeskHTTPException c msg)
                 (current_page (pag w)) (per_page (pag w))))
  /\ (forall fuel st w1 w2 e,
        aiter_next fuel st w1 = (w2, Exc e) ->
        exists cause, e = ZendeskPaginationException cause (current_page (pag w2)) (per_page (pag w2))
                      /\ is_422 cause = false).
Proof.
  split; [|exact aiter_next_raises_pagination_error].
  cbn [aiter_next]. unfold mbind at 1, mtry.
  unfold get_page, fetch_page, get_pag, http_get, mbind, mret. cbn.
  unfold page_request in Hsrv. rewrite Hsrv.
  unfold aiter_handler, get_pag, mbind, mret, mraise. cbn.
  destruct (Z.eqb c 422); reflexivity.
Qed.


(** ** C2 *)

(** C2 (the fallback of [OffsetPaginator._has_more_pages]): when the last
    response reported neither [has_more] nor [count], the answer is [True]
    whatever the last page held; in particular after an empty page. *)
Theorem offset_fallback_ignores_page (w : world) (key : string) (i : PaginationInfo)
  (Hkind : kind (pag w) = OffsetPaginator key)
  (Hinfo : pagination_info (pag w) = Some i)
  (Hhm : pi_has_more i = JNull) (Hcount : pi_count i = JNull) :
  has_more_pages w = (w, Ret (JBool true)).
Proof.
  unfold has_more_pages, get_pag, mbind. cbn.
  rewrite Hkind, Hinfo, Hhm, Hcount. reflexivity.
Qed.


(** ** C3 *)

(** [_paginate_enriched] ends, without raising, on every exception of the
    page fetch. *)
Theorem paginate_enriched_swallows_errors (f : nat) (w w' : world) (e : exn)
  (Hpage : get_page None w = (w', Exc e)) :
  paginate_enriched_next (S f) PgFetch w = (w', Ret (PgDone, None)).
Proof.
  cbn [paginate_enriched_next]. unfold mbind at 1, mtry. rewrite Hpage. reflexivity.
Qed.




(** ** C4 *)

Section PageOverwrite.

Variable n : Z.

(** [m] does not read [_current_page] on a cursor variant, and keeps the
    class of the paginator. *)
Definition page_blind {A} (m : M A) : Prop :=
  forall w, is_cursor_variant (kind (pag w)) = true ->
    m (with_page w n) = (with_page (fst (m w)) n, snd (m w)) /\
    kind (pag (fst (m w))) = kind (pag w).

Lemma page_blind_ret {A} (a : A) : page_blind (mret a).
Proof. intros w _. split; reflexivity. Qed.

Lemma page_blind_lift {A} (r : res A) : page_blind (lift r).
Proof. intros w _. split; reflexivity. Qed.

Lemma page_blind_bind {A B} (m : M A) (k : A -> M B) :
  page_blind m -> (forall a, page_blind (k a)) -> page_blind (mbind m k).
Proof.
  intros Hm Hk w Hw. unfold mbind.
  destruct (Hm w Hw) as [E Hkind]. rewrite E.
  destruct (m w) as [w1 [a|e|]]; cbn in *; [|split; auto..].
  rewrite <- Hkind in Hw. destruct (Hk a w1 Hw) as [E2 Hk2].
  split; [exact E2|congruence].
Qed.

Lemma page_blind_modify (f : paginator -> paginator) :
  (forall p, f (set_current_page p n) = set_current_page (f p) n) ->
  (forall p, kind (f p) = kind p) ->
  page_blind (modify_pag f).
Proof.
  intros Hc Hkf w _. unfold modify_pag, with_page. cbn. rewrite Hc. split; [reflexivity|apply Hkf].
Qed.

Lemma page_blind_http (r : request) : page_blind (http_get r).
Proof.
  intros w _. unfold http_get, with_page. cbn.
  destruct (server (calls w) r); split; reflexivity.
Qed.

Lemma page_blind_mtry {A} (m : M A) : page_blind m -> page_blind (mtry m).
Proof.
  intros Hm w Hw. unfold mtry. destruct (Hm w Hw) as [E Hk]. rewrite E.
  destruct (m w) as [w1 [a|e|]]; cbn in *; split; auto.
Qed.

Lemma page_blind_has_more : page_blind has_more_pages.
Proof.
  intros [[k pth ps pp cp pi nc hs q ft nu] cs] Hw.
  destruct k; [discriminate Hw| |]; unfold has_more_pages, get_pag, mbind, mret, with_page; cbn;
    destruct hs, pi as [i|]; cbn; try destruct (is_none (pi_has_more i)); split; reflexivity.
Qed.

Lemma mbind_get_pag {A} (F : paginator -> M A) (w : world) :
  mbind get_pag F w = F (pag w) w.
Proof. reflexivity. Qed.

(** A method that reads the paginator and depends on it only through
    attributes other than [_current_page]. *)
Lemma page_blind_get_pag {A} (F : paginator -> M A) :
  (forall p, is_cursor_variant (kind p) = true ->
     page_blind (F p) /\ F (set_current_page p n) = F p) ->
  page_blind (mbind get_pag F).
Proof.
  intros H w Hw. rewrite !mbind_get_pag. cbn [pag with_page].
  destruct (H (pag w) Hw) as [Hb Heq]. rewrite Heq. exact (Hb w Hw).
Qed.

Ltac blind :=
  repeat first
    [ apply page_blind_has_more
    | apply page_blind_ret
    | apply page_blind_lift
    | apply page_blind_http
    | apply page_blind_mtry
    | apply page_blind_bind; [|intro]
    | apply page_blind_modify; intros []; reflexivity
    | match goal with |- page_blind (if ?b then _ else _) => destruct b end ].

Lemma page_blind_update (response : json) : page_blind (update_pagination_state response).
Proof.
  apply page_blind_get_pag. intros p Hp. split; [|reflexivity].
  destruct (kind p); [discriminate Hp| |]; blind.
Qed.

Lemma page_blind_extract (response : json) : page_blind (extract_items response).
Proof.
  apply page_blind_get_pag. intros p Hp. split; [|reflexivity].
  destruct (kind p); [discriminate Hp| |]; blind.
Qed.

Lemma page_blind_fetch (ps : dict) : page_blind (fetch_page ps).
Proof.
  apply page_blind_get_pag. intros p Hp. split; [|reflexivity]. blind.
Qed.

Lemma build_page_params_blind (p : paginator) :
  is_cursor_variant (kind p) = true ->
  build_page_params (set_current_page p n) = build_page_params p.
Proof. intros Hp. unfold build_page_params, get_page_params. cbn. destruct (kind p); easy. Qed.

Lemma page_blind_get_page : page_blind (get_page None).
Proof.
  unfold get_page. apply page_blind_bind; [apply page_blind_ret|intros _].
  apply page_blind_get_pag. intros p Hp. split.
  - apply page_blind_bind; [apply page_blind_fetch|intros r].
    apply page_blind_bind; [apply page_blind_update|intros _]. apply page_blind_extract.
  - rewrite (build_page_params_blind p Hp). reflexivity.
Qed.

End PageOverwrite.



(** ** The frame of a paginator during iteration *)

(** [m] keeps the frame of the paginator and only appends page requests
    of paginators with that frame to the Transport log. *)
Definition frame_ok {A} (m : M A) : Prop :=
  forall w, frame (pag (fst (m w))) = frame (pag w) /\
    exists new, calls (fst (m w)) = calls w ++ new /\
      Forall (fun r => exists p, frame p = frame (pag w) /\ r = page_request p) new.

Lemma frame_ok_pure {A} (m : M A) : (forall w, fst (m w) = w) -> frame_ok m.
Proof. intros H w. rewrite H. split; [reflexivity|]. exists []. rewrite app_nil_r. auto. Qed.

Lemma frame_ok_ret {A} (a : A) : frame_ok (mret a).
Proof. apply frame_ok_pure. reflexivity. Qed.

Lemma frame_ok_lift {A} (r : res A) : frame_ok (lift r).
Proof. apply frame_ok_pure. reflexivity. Qed.

Lemma frame_ok_raise {A} (e : exn) : frame_ok (A:=A) (mraise e).
Proof. apply frame_ok_pure. reflexivity. Qed.

Lemma frame_ok_stuck {A} : frame_ok (A:=A) mstuck.
Proof. apply frame_ok_pure. reflexivity. Qed.

Lemma frame_ok_bind {A B} (m : M A) (k : A -> M B) :
  frame_ok m -> (forall a, frame_ok (k a)) -> frame_ok (mbind m k).
Proof.
  intros Hm Hk w. unfold mbind. destruct (Hm w) as [Hf (new & Hc & Hn)].
  destruct (m w) as [w1 [a|e|]] eqn:E; cbn in *; [|split; eauto..].
  destruct (Hk a w1) as [Hf2 (new2 & Hc2 & Hn2)]. split; [congruence|].
  exists (new ++ new2). split; [rewrite Hc2, Hc, app_assoc; reflexivity|].
  apply Forall_app. split; [exact Hn|]. rewrite Hf in Hn2. exact Hn2.
Qed.

Lemma frame_ok_mtry {A} (m : M A) : frame_ok m -> frame_ok (mtry m).
Proof.
  intros Hm w. unfold mtry. destruct (Hm w) as [Hf Hc].
  destruct (m w) as [w1 [a|e|]]; cbn in *; auto.
Qed.

Lemma frame_ok_modify (f : paginator -> paginator) :
  (forall p, frame (f p) = frame p) -> frame_ok (modify_pag f).
Proof.
  intros Hf w. cbn. split; [apply Hf|]. exists []. rewrite app_nil_r. auto.
Qed.

Lemma frame_ok_get_pag {A} (F : paginator -> M A) :
  (forall p, frame_ok (F p)) -> frame_ok (mbind get_pag F).
Proof. intros H w. rewrite mbind_get_pag. apply H. Qed.

Ltac framed :=
  repeat first
    [ apply frame_ok_ret
    | apply frame_ok_lift
    | apply frame_ok_raise
    | apply frame_ok_stuck
    | apply frame_ok_mtry
    | apply frame_ok_modify; intros []; reflexivity
    | apply frame_ok_get_pag; intro
    | apply frame_ok_bind; [|intro]
    | match goal with |- frame_ok (if ?b then _ else _) => destruct b end
    | match goal with |- frame_ok (match ?x with _ => _ end) => destruct x end ].

Lemma frame_ok_has_more : frame_ok has_more_pages.
Proof. unfold has_more_pages. framed. Qed.

Lemma frame_ok_update (response : json) : frame_ok (update_pagination_state response).
Proof. unfold update_pagination_state. framed; apply frame_ok_has_more. Qed.

Lemma frame_ok_extract (response : json) : frame_ok (extract_items response).
Proof. unfold extract_items. framed. Qed.

Lemma frame_ok_advance : frame_ok advance_to_next_page.
Proof. unfold advance_to_next_page. framed. Qed.

Lemma frame_ok_get_page : frame_ok (get_page None).
Proof.
  unfold get_page. apply frame_ok_bind; [apply frame_ok_ret|intros _].
  assert (Hk : forall body, frame_ok (update_pagination_state body ;; extract_items body)).
  { intros body. apply frame_ok_bind; [apply frame_ok_update|intros _; apply frame_ok_extract]. }
  intros w. rewrite mbind_get_pag.
  unfold fetch_page, http_get, get_pag, mbind at 1 2 4 5.
  cbn -[update_pagination_state extract_items mbind].
  change (Get (path (pag w)) (Some (build_page_params (pag w)))) with (page_request (pag w)).
  destruct (server (calls w) (page_request (pag w))) as [e|body] eqn:Es; cbn -[mbind].
  - split; [reflexivity|]. exists [page_request (pag w)].
    split; [reflexivity|]. constructor; [exists (pag w); auto|constructor].
  - destruct (Hk body (mkWorld (pag w) (calls w ++ [page_request (pag w)]))) as [Hf (new & Hc & Hn)].
    cbn in Hf, Hn. split; [exact Hf|].
    exists (page_request (pag w) :: new). split.
    + cbn -[mbind] in Hc |- *. rewrite Hc, <- app_assoc. reflexivity.
    + constructor; [exists (pag w); auto|exact Hn].
Qed.

Lemma frame_ok_aiter_next (fuel : nat) : forall st, frame_ok (aiter_next fuel st).
Proof.
  induction fuel as [|f IH]; intros st; [apply frame_ok_stuck|].
  destruct st as [| |[|x rest]|]; cbn [aiter_next].
  - apply frame_ok_bind; [|intros _; apply IH].
    apply frame_ok_modify. intros []; reflexivity.
  - apply frame_ok_bind; [apply frame_ok_mtry, frame_ok_bind; [apply frame_ok_get_page|intros; apply frame_ok_lift]|].
    intros [l|e]; [apply IH|unfold aiter_handler; destruct e; framed].
  - apply frame_ok_bind; [apply frame_ok_mtry, frame_ok_has_more|].
    intros [b|e]; [|unfold aiter_handler; destruct e; framed].
    destruct (negb (truthy b)); [apply frame_ok_ret|].
    apply frame_ok_bind; [apply frame_ok_advance|intros _; apply IH].
  - apply frame_ok_ret.
  - apply frame_ok_ret.
Qed.

Lemma frame_ok_aiter_drain (fuel : nat) : forall st, frame_ok (aiter_drain fuel st).
Proof.
  induction fuel as [|f IH]; intros st; [apply frame_ok_stuck|].
  cbn [aiter_drain]. apply frame_ok_bind; [apply frame_ok_aiter_next|].
  intros [st' [x|]]; cbn; [|apply frame_ok_ret].
  apply frame_ok_bind; [apply IH|intros; apply frame_ok_ret].
Qed.


(** ** The parameters of an export page request *)

Lemma export_page_params (p : paginator) :
  kind p = SearchExportPaginator -> params p = [] ->
  dict_get (build_page_params p) "query" = Some (JStr (query p)) /\
  dict_get (build_page_params p) "filter[type]" = Some (JStr (filter_type p)) /\
  dict_get (build_page_params p) "page[size]" = Some (JNum (per_page p)) /\
  dict_get (build_page_params p) "cursor" = None /\
  (has_started p = true -> truthy (next_cursor p) = true ->
   dict_get (build_page_params p) "page[after]" = Some (next_cursor p)).
Proof.
  intros Hk Hp. unfold build_page_params, get_page_params. rewrite Hk, Hp.
  destruct (truthy (next_cursor p)), (has_started p); cbn; repeat split; try reflexivity;
    intros; discriminate.
Qed.

Lemma has_more_pages_world (w : world) : fst (has_more_pages w) = w.
Proof.
  unfold has_more_pages. rewrite mbind_get_pag.
  unfold mbind, lift, mret; repeat case_match; cbn in *; congruence.
Qed.


(** ** C10 *)

Lemma dict_get_set_same (d : dict) (k : string) (v : json) :
  dict_get (dict_set d k v) k = Some v.
Proof.
  induction d as [|[k' v'] rest IH]; cbn.
  - rewrite String.eqb_refl. reflexivity.
  - destruct (String.eqb k' k) eqn:E; cbn; rewrite E; [reflexivity|exact IH].
Qed.

Lemma dict_get_update_last (d l : dict) (k : string) (v : json) :
  dict_get (dict_update d (l ++ [(k, v)])) k = Some v.
Proof. unfold dict_update. rewrite fold_left_app. cbn. apply dict_get_set_same. Qed.

Lemma frame_ok_bind_calls {A B} (m : M A) (k : A -> M B) (w : world) :
  (forall a, frame_ok (k a)) ->
  exists new, calls (fst (mbind m k w)) = calls (fst (m w)) ++ new.
Proof.
  intros Hk. unfold mbind. destruct (m w) as [w1 [a|e|]]; cbn.
  - destruct (Hk a w1) as [_ (new & Hc & _)]. eauto.
  - exists []. rewrite app_nil_r. reflexivity.
  - exists []. rewrite app_nil_r. reflexivity.
Qed.

Lemma mtry_world {A} (m : M A) (w : world) : fst (mtry m w) = fst (m w).
Proof. unfold mtry. destruct (m w) as [w1 [a|e|]]; reflexivity. Qed.

(** [get_page()] starts with the GET built from the current state. *)
Lemma get_page_first_call (w : world) :
  exists rest, calls (fst (get_page None w)) = calls w ++ page_request (pag w) :: rest.
Proof.
  change (get_page None w) with
    (mbind (fetch_page (build_page_params (pag w)))
       (fun response => update_pagination_state response ;; extract_items response) w).
  destruct (frame_ok_bind_calls (fetch_page (build_page_params (pag w)))
              (fun response => update_pagination_state response ;; extract_items response) w)
    as [new Hc].
  { intros body. apply frame_ok_bind; [apply frame_ok_update|intros _; apply frame_ok_extract]. }
  rewrite Hc. exists new.
  unfold fetch_page, http_get, get_pag, mbind. cbn.
  destruct (server _ _); cbn; rewrite <- app_assoc; reflexivity.
Qed.

(** C10: a new iteration ([__aiter__]) of an existing paginator only sets
    [_current_page] to 1 and keeps every other attribute: it continues as
    the loop from that state, and its first GET is built from that state.
    On a cursor variant this GET is the one the old state would send
    ([_current_page] is not read); for a [CursorPaginator] that has started
    and saved a (truthy) next cursor, it carries the saved cursor as its
    [cursor] parameter. *)
Theorem cursor_restart_resends_cursor (f : nat) (w : world) :
  aiter_next (S f) AStart w = aiter_next f AFetch (with_page w 1) /\
  (exists rest, calls (fst (aiter_next (S (S f)) AStart w)) =
                calls w ++ page_request (set_current_page (pag w) 1) :: rest) /\
  (is_cursor_variant (kind (pag w)) = true ->
   page_request (set_current_page (pag w) 1) = page_request (pag w)) /\
  (forall key, kind (pag w) = CursorPaginator key -> has_started (pag w) = true ->
   truthy (next_cursor (pag w)) = true ->
   dict_get (build_page_params (set_current_page (pag w) 1)) "cursor" = Some (next_cursor (pag w))).
Proof.
  split; [reflexivity|]. split.
  - change (aiter_next (S (S f)) AStart w) with (aiter_next (S f) AFetch (with_page w 1)).
    cbn [aiter_next].
    destruct (frame_ok_bind_calls
                (mtry (let! items := get_page None in lift (py_iter items)))
                (fun r => match r with
                          | inl l => aiter_next f (AItems l)
                          | inr e => aiter_handler e
                          end) (with_page w 1)) as [n1 H1].
    { intros [l|e]; [apply frame_ok_aiter_next|unfold aiter_handler; destruct e; framed]. }
    rewrite H1, mtry_world.
    destruct (frame_ok_bind_calls (get_page None) (fun items => lift (py_iter items))
                (with_page w 1)) as [n2 H2].
    { intros; apply frame_ok_lift. }
    rewrite H2.
    destruct (get_page_first_call (with_page w 1)) as [n3 H3]. rewrite H3.
    exists (n3 ++ n2 ++ n1). cbn. rewrite <- !app_assoc. reflexivity.
  - split.
    + intros Hk. unfold page_request. rewrite (build_page_params_blind 1 (pag w) Hk). reflexivity.
    + intros key Hk Hs Hc.
    unfold build_page_params, get_page_params. cbn [set_current_page kind next_cursor has_started params].
      rewrite Hk, Hc, Hs. cbn [andb].
      apply dict_get_update_last.
  Qed.


(** ** C7 *)

(** C7: a successful [get_enriched] issues exactly two GETs, the ticket
    with its users and the comments of the parsed ticket's id with theirs,
    and its user map is the union by id of the two sideloaded maps, the
    comments' entry winning on a shared id.  Any run issues at most these
    two GETs. *)
Theorem get_enriched_two_calls (tid : Z) (w : world) :
  (exists l, calls (fst (get_enriched tid w)) = calls w ++ l /\ (length l <= 2)%nat) /\
  (forall e, snd (get_enriched tid w) = Ret e ->
   exists r1 r2 i tu cu,
     calls (fst (get_enriched tid w)) = calls w ++ [ticket_request tid; comments_request i] /\
     server (calls w) (ticket_request tid) = inr r1 /\
     server (calls w ++ [ticket_request tid]) (comments_request i) = inr r2 /\
     id (ticket e) = Some i /\
     extract_users_from_response r1 = Ret tu /\
     extract_users_from_response r2 = Ret cu /\
     users e = cu ∪ tu /\
     (forall k, users e !! k = match cu !! k with Some u => Some u | None => tu !! k end)).
Proof.
  unfold get_enriched, build_enriched_ticket, fetch_comments_with_users, http_get,
    mbind, lift, mret, mraise.
  destruct (server (calls w) (ticket_request tid)) as [ex|r1] eqn:E1; cbn.
  { split; [exists [ticket_request tid]; cbn; auto|intros e H; discriminate]. }
  destruct (py_getitem r1 "ticket") as [data|ex|]; cbn;
    try (split; [exists [ticket_request tid]; cbn; auto|intros e H; discriminate]).
  destruct (parse_ticket data) as [t|ex|]; cbn;
    try (split; [exists [ticket_request tid]; cbn; auto|intros e H; discriminate]).
  destruct (extract_users_from_response r1) as [tu|ex|] eqn:Etu; cbn;
    try (split; [exists [ticket_request tid]; cbn; auto|intros e H; discriminate]).
  destruct (id t) as [i|] eqn:Ei; cbn;
    [|split; [exists [ticket_request tid]; cbn; auto|intros e H; discriminate]].
  destruct (server (calls w ++ [ticket_request tid]) (comments_request i)) as [ex|r2] eqn:E2; cbn;
    [split; [exists [ticket_request tid; comments_request i]; cbn; rewrite <- app_assoc; auto
            |intros e H; discriminate]|].
  assert (Hl : calls w ++ [ticket_request tid] ++ [comments_request i]
               = calls w ++ [ticket_request tid; comments_request i]) by reflexivity.
  destruct (py_get r2 "comments" (JArr [])) as [raw|ex|]; cbn;
    try (split; [exists [ticket_request tid; comments_request i]; cbn; rewrite <- app_assoc; auto
                |intros e H; discriminate]).
  destruct (py_iter raw) as [datas|ex|]; cbn;
    try (split; [exists [ticket_request tid; comments_request i]; cbn; rewrite <- app_assoc; auto
                |intros e H; discriminate]).
  destruct (map_res parse_comment datas) as [cs|ex|]; cbn;
    try (split; [exists [ticket_request tid; comments_request i]; cbn; rewrite <- app_assoc; auto
                |intros e H; discriminate]).
  destruct (extract_users_from_response r2) as [cu|ex|] eqn:Ecu; cbn;
    try (split; [exists [ticket_request tid; comments_request i]; cbn; rewrite <- app_assoc; auto
                |intros e H; discriminate]).
  split; [exists [ticket_request tid; comments_request i]; cbn; rewrite <- app_assoc; auto|].
  intros e H. injection H as <-.
  exists r1, r2, i, tu, cu. cbn. rewrite <- app_assoc.
  repeat split; auto.
  intros k. rewrite lookup_union. destruct (cu !! k), (tu !! k); reflexivity.
Qed.

(** ** C8 *)

Lemma elem_of_referenced_ids (tickets : list Ticket) (s : gset Z) (x : Z) :
  x ∈ fold_left (fun s t => s ∪ ticket_user_ids t) tickets s <->
  x ∈ s \/ exists t, t ∈ tickets /\ x ∈ ticket_user_ids t.
Proof.
  revert s. induction tickets as [|t rest IH]; intros s; cbn.
  - split; [auto|intros [H|(t & Ht & _)]; [exact H|inversion Ht]].
  - rewrite IH, elem_of_union. split.
    + intros [[H|H]|(t' & Ht' & H)]; [auto|right; exists t; split; [left|]; auto|].
      right. exists t'. split; [right|]; auto.
    + intros [H|(t' & Ht' & H)]; [auto|].
      apply elem_of_cons in Ht' as [->|Ht']; [auto|]. right. eauto.
Qed.

(** C8 (amended): the user-resolve step of a batch ([_collect_user_ids_from_tickets]
    then [_fetch_users_batch]), with [list(set)] listing each member once.
    If the tickets reference no user id, no GET is issued.  Otherwise
    exactly one [show_many] GET is issued; its ids are distinct, are
    referenced ids, number [min 100 |S|] for the referenced set [S], and
    are all of [S] when [|S| <= 100]. *)
Theorem batch_user_resolve (tickets : list Ticket) (w : world)
  (Hset : forall s, set_to_list s ≡ₚ elements s) :
  let S := fold_left (fun s t => s ∪ ticket_user_ids t) tickets ∅ in
  (S = ∅ -> calls (fst (fetch_users_batch (collect_user_ids_from_tickets tickets) w)) = calls w) /\
  (S <> ∅ ->
   exists ids,
     calls (fst (fetch_users_batch (collect_user_ids_from_tickets tickets) w))
       = calls w ++ [show_many_request ids] /\
     NoDup ids /\
     length ids = Nat.min 100 (size S) /\
     (forall x, x ∈ ids -> exists t, t ∈ tickets /\ x ∈ ticket_user_ids t) /\
     ((size S <= 100)%nat -> forall x, x ∈ S -> x ∈ ids)).
Proof.
  intros S. unfold collect_user_ids_from_tickets. fold S.
  split.
  - intros HS. rewrite HS.
    assert (Hn : set_to_list (∅ : gset Z) = []).
    { apply Permutation_nil. rewrite Hset, elements_empty. reflexivity. }
    rewrite Hn. reflexivity.
  - intros HS.
    assert (Hmem : forall x, x ∈ set_to_list S <-> x ∈ S).
    { intros x. rewrite Hset. apply elem_of_elements. }
    assert (Hls : list_to_set (set_to_list S) = S).
    { apply leibniz_equiv. intros x. rewrite elem_of_list_to_set. apply Hmem. }
    assert (Hne : set_to_list S <> []).
    { intros Ey. apply HS. apply leibniz_equiv. intros x. rewrite <- Hmem, Ey.
      split; [intros H; inversion H|set_solver]. }
    unfold fetch_users_batch.
    destruct (set_to_list S) as [|y ys] eqn:Ey; [contradiction|].
    rewrite Hls. rewrite <- Ey in Hmem.
    exists (take 100 (set_to_list S)).
    assert (Hnd : NoDup (set_to_list S)).
    { rewrite Hset. apply NoDup_elements. }
    assert (Hlen : length (set_to_list S) = size S).
    { rewrite Hset. reflexivity. }
    split; [|split; [|split; [|split]]].
    + unfold mbind, http_get. cbn. destruct (server _ _); reflexivity.
    + eapply sublist_NoDup; [exact Hnd|apply sublist_take].
    + rewrite length_take, Hlen. lia.
    + intros x Hx. apply elem_of_take in Hx as (i & Hi & _).
      apply list_elem_of_lookup_2 in Hi. apply Hmem in Hi.
      apply elem_of_referenced_ids in Hi as [Hi|Hi]; [set_solver|exact Hi].
    + intros Hle x Hx. rewrite take_ge by (rewrite Hlen; lia). apply Hmem. exact Hx.
Qed.


(** ** C9 *)

Lemma mtry_inl {A} (m : M A) (w w' : world) (a : A) :
  mtry m w = (w', Ret (inl a)) -> m w = (w', Ret a).
Proof. unfold mtry. destruct (m w) as [w1 [b|e|]]; intros H; inversion H; reflexivity. Qed.

Lemma run_tasks_results {A} (order : list nat) (tasks : list (M A)) :
  forall w w' rs, run_tasks order tasks w = (w', Ret rs) ->
  Forall (fun kr => exists task w1 w2,
            tasks !! kr.1 = Some task /\ mtry task w1 = (w2, Ret kr.2)) rs.
Proof.
  induction order as [|k rest IH]; intros w w' rs H; cbn in H.
  - injection H as _ <-. constructor.
  - destruct (tasks !! k) as [task|] eqn:Ek; [|discriminate].
    unfold mbind, mret in H.
    destruct (mtry task w) as [w1 [r|e|]] eqn:Et; [|discriminate|discriminate].
    destruct (run_tasks rest tasks w1) as [w2 [rs'|e|]] eqn:Er; [|discriminate|discriminate].
    injection H as _ <-. constructor; [|exact (IH _ _ _ Er)].
    exists task, w, w1. auto.
Qed.

Lemma slot_result_in {A} (rs : list (nat * (A + exn))) (k : nat) (a : A) :
  slot_result rs k = Some a -> (k, inl a) ∈ rs.
Proof.
  unfold slot_result. destruct (find (fun kr => Nat.eqb (fst kr) k) rs) as [[k' [a'|e]]|] eqn:E;
    intros H; try discriminate.
  injection H as ->. apply find_some in E as [Hin Hk]. cbn in Hk.
  apply Nat.eqb_eq in Hk as ->. apply list_elem_of_In. exact Hin.
Qed.

(** The fan-in join: a successful [gather] has one result per task, in
    task order, and result [i] is a value task [i] returns. *)
Lemma gather_slots {A} (order : list nat) (tasks : list (M A)) (w : world) (l : list A) :
  snd (gather order tasks w) = Ret l ->
  length l = length tasks /\
  forall i a, l !! i = Some a ->
    exists task w1 w2, tasks !! i = Some task /\ task w1 = (w2, Ret a).
Proof.
  unfold gather, mbind. intros H.
  destruct (run_tasks order tasks w) as [w1 [rs|e|]] eqn:Er; try discriminate.
  destruct (first_exn rs); [discriminate|].
  destruct (mapM (slot_result rs) (seq 0 (length tasks))) as [l'|] eqn:Em; [|discriminate].
  injection H as <-. apply mapM_Some in Em.
  split.
  - apply Forall2_length in Em. rewrite length_seq in Em. lia.
  - intros i a Hi.
    destruct (Forall2_lookup_r _ _ _ _ _ Em Hi) as (k & Hk & Hs).
    apply lookup_seq in Hk as [-> _].
    apply slot_result_in in Hs.
    apply run_tasks_results in Er. rewrite Forall_forall in Er.
    destruct (Er _ Hs) as (task & w2 & w3 & Ht & Hm). cbn in Ht, Hm.
    exists task, w2, w3. split; [exact Ht|]. apply (mtry_inl task w2 w3 a Hm).
Qed.

(** The records of a successful [_build_enriched_tickets], slot by slot. *)
Lemma enriched_slots (tickets : list Ticket) (tu : gmap Z User) (w : world)
  (l : list EnrichedTicket) :
  snd (build_enriched_tickets tickets tu w) = Ret l ->
  map ticket l = List.filter has_id tickets /\
  forall i e, l !! i = Some e ->
    exists t cs cu w1 w2,
      List.filter has_id tickets !! i = Some t /\
      e = mkEnrichedTicket t cs (cu ∪ scoped_users t tu) /\
      fetch_comments_with_users (default 0 (id t)) w1 = (w2, Ret (cs, cu)).
Proof.
  unfold build_enriched_tickets. intros H.
  destruct tickets as [|t0 ts].
  { injection H as <-. split; [reflexivity|intros i e Hi; inversion Hi]. }
  cbv zeta in H.
  destruct (List.filter has_id (t0 :: ts)) as [|v0 vs] eqn:Ev.
  { injection H as <-. split; [reflexivity|intros i e Hi; inversion Hi]. }
  rewrite <- Ev in H |- *. clear v0 vs Ev.
  set (valid := List.filter has_id (t0 :: ts)) in *.
  set (tasks := map (fun t => fetch_comments_with_users (default 0 (id t))) valid) in *.
  clearbody valid.
  unfold mbind at 1 in H.
  destruct (gather (completion_order (length valid)) tasks w) as [w1 [rs|e|]] eqn:Eg;
    try discriminate.
  unfold mret in H. cbn [snd] in H. injection H as <-.
  assert (Hg : snd (gather (completion_order (length valid)) tasks w) = Ret rs)
    by (rewrite Eg; reflexivity).
  apply gather_slots in Hg as [Hlen Hslot].
  unfold tasks in Hlen. rewrite length_map in Hlen.
  split.
  - apply list_eq. intros i. rewrite list_lookup_fmap, lookup_zip_with.
    destruct (valid !! i) as [t|] eqn:Et, (rs !! i) as [r|] eqn:Er; cbn; try reflexivity.
    apply lookup_lt_Some in Et. apply lookup_ge_None in Er. lia.
  - intros i e Hi. rewrite lookup_zip_with in Hi.
    destruct (valid !! i) as [t|] eqn:Et; [|discriminate].
    destruct (rs !! i) as [[cs cu]|] eqn:Er; [|discriminate].
    injection Hi as <-.
    destruct (Hslot _ _ Er) as (task & w2 & w3 & Ht & Hm).
    unfold tasks in Ht. rewrite list_lookup_fmap, Et in Ht. injection Ht as <-.
    exists t, cs, cu, w2, w3. auto.
Qed.

(** C9: whatever the completion order of the comment fetches, a successful
    [_build_enriched_tickets] returns one record per ticket that has an id,
    in input order: record [i] holds ticket [i] of the filtered list, the
    comments and comment users of a fetch of that ticket's comments, and
    its users are the comment users over the ticket's scoped users. *)
Theorem enrich_many_input_order (tickets : list Ticket) (tu : gmap Z User) (w : world)
  (l : list EnrichedTicket) :
  snd (build_enriched_tickets tickets tu w) = Ret l ->
  map ticket l = List.filter has_id tickets /\
  forall i e, l !! i = Some e ->
    exists t cs cu w1 w2,
      List.filter has_id tickets !! i = Some t /\
      e = mkEnrichedTicket t cs (cu ∪ scoped_users t tu) /\
      fetch_comments_with_users (default 0 (id t)) w1 = (w2, Ret (cs, cu)).
Proof. exact (enriched_slots tickets tu w l). Qed.




(** * Further properties of the pagination and enrichment code *)

(** ** Request parameters *)

Lemma dict_get_app (d1 d2 : dict) (k : string) :
  dict_get (d1 ++ d2) k = match dict_get d1 k with Some v => Some v | None => dict_get d2 k end.
Proof.
  induction d1 as [|[k' v'] rest IH]; cbn; [reflexivity|].
  destruct (String.eqb k' k); [reflexivity|exact IH].
Qed.

Lemma dict_get_set (d : dict) (k : string) (v : json) (k' : string) :
  dict_get (dict_set d k v) k' = if String.eqb k k' then Some v else dict_get d k'.
Proof.
  induction d as [|[k0 v0] rest IH]; cbn; [destruct (String.eqb k k'); reflexivity|].
  destruct (String.eqb_spec k0 k) as [->|Hne]; cbn.
  - destruct (String.eqb k k'); reflexivity.
  - destruct (String.eqb_spec k0 k') as [->|Hne']; [|exact IH].
    destruct (String.eqb_spec k k') as [->|]; [contradiction|reflexivity].
Qed.

(** [d1.update(d2)]: a key of [d2] takes its last value there. *)
Lemma dict_get_update (d1 d2 : dict) (k : string) :
  dict_get (dict_update d1 d2) k =
  match dict_get (rev d2) k with Some v => Some v | None => dict_get d1 k end.
Proof.
  revert d1. induction d2 as [|[k0 v0] rest IH]; intros d1; [reflexivity|].
  change (dict_update d1 ((k0, v0) :: rest)) with (dict_update (dict_set d1 k0 v0) rest).
  rewrite IH. cbn [rev]. rewrite dict_get_app, dict_get_set. cbn.
  destruct (dict_get (rev rest) k); [reflexivity|].
  destruct (String.eqb k0 k); reflexivity.
Qed.

Lemma offset_params_lookup (p : paginator) (key k : string) :
  kind p = OffsetPaginator key ->
  dict_get (build_page_params p) k =
    if String.eqb k "page" then Some (JNum (current_page p))
    else if String.eqb k "per_page" then Some (JNum (per_page p))
    else dict_get (params p) k.
Proof.
  intros Hk. unfold build_page_params, get_page_params. rewrite Hk, dict_get_update. cbn [rev app dict_get].
  rewrite (String.eqb_sym "per_page" k), (String.eqb_sym "page" k).
  destruct (String.eqb_spec k "page") as [->|]; [reflexivity|].
  destruct (String.eqb k "per_page"); reflexivity.
Qed.

Lemma cursor_params_lookup (p : paginator) (key k : string) :
  kind p = CursorPaginator key ->
  dict_get (build_page_params p) k =
    if String.eqb k "per_page" then Some (JNum (per_page p))
    else if String.eqb k "cursor" && truthy (next_cursor p) && has_started p then Some (next_cursor p)
    else dict_get (params p) k.
Proof.
  intros Hk. unfold build_page_params, get_page_params. rewrite Hk, dict_get_update.
  destruct (truthy (next_cursor p)), (has_started p); cbn [rev app dict_get andb];
    rewrite ?(String.eqb_sym "per_page" k), ?(String.eqb_sym "cursor" k);
    destruct (String.eqb_spec k "per_page") as [->|]; try reflexivity;
    destruct (String.eqb k "cursor"); reflexivity.
Qed.

(** [get_page(page)] writes the page first, then fetches. *)
Lemma get_page_some (n : Z) (w : world) : get_page (Some n) w = get_page None (with_page w n).
Proof. reflexivity. Qed.

(** C4 (as the code has it): [get_page(page)] raises nothing of its own
    on any paginator.  On a cursor variant it overwrites [_current_page],
    which the cursor variants never read: the request is the one
    [get_page()] sends, and the outcome is that of [get_page()] with only
    [_current_page] changed, so the stream does not move to [page].  On
    the offset variant it is [get_page()] from the state with
    [_current_page = page], whose first GET asks for that page. *)
Theorem cursor_get_page_ignores_page (w : world) (n : Z) :
  (is_cursor_variant (kind (pag w)) = true ->
   get_page (Some n) w = (with_page (fst (get_page None w)) n, snd (get_page None w)) /\
   page_request (set_current_page (pag w) n) = page_request (pag w)) /\
  (forall key, kind (pag w) = OffsetPaginator key ->
   get_page (Some n) w = get_page None (with_page w n) /\
   (exists rest, calls (fst (get_page (Some n) w)) =
                 calls w ++ page_request (set_current_page (pag w) n) :: rest) /\
   dict_get (build_page_params (set_current_page (pag w) n)) "page" = Some (JNum n)).
Proof.
  split.
  - intros Hk. split.
    + rewrite get_page_some. exact (proj1 (page_blind_get_page n w Hk)).
    + unfold page_request. rewrite (build_page_params_blind n (pag w) Hk). reflexivity.
  - intros key Hk. split; [apply get_page_some|]. split.
    + rewrite get_page_some. exact (get_page_first_call (with_page w n)).
    + rewrite (offset_params_lookup (set_current_page (pag w) n) key "page" Hk). reflexivity.
Qed.

(** X1: [get_page(n)] on an [OffsetPaginator] first sends one GET to the
    paginator's path whose [page] parameter is [n] and whose [per_page]
    parameter is the page size; every other parameter is the one the
    paginator was built with. *)
Theorem offset_get_page_request (w : world) (key : string) (n : Z)
  (Hk : kind (pag w) = OffsetPaginator key) :
  exists ps rest,
    calls (fst (get_page (Some n) w)) = calls w ++ Get (path (pag w)) (Some ps) :: rest /\
    forall k, dict_get ps k =
      if String.eqb k "page" then Some (JNum n)
      else if String.eqb k "per_page" then Some (JNum (per_page (pag w)))
      else dict_get (params (pag w)) k.
Proof.
  rewrite get_page_some.
  destruct (get_page_first_call (with_page w n)) as [rest Hc].
  exists (build_page_params (set_current_page (pag w) n)), rest. split; [exact Hc|].
  intros k. exact (offset_params_lookup (set_current_page (pag w) n) key k Hk).
Qed.

(** X2: [get_page()] on a [CursorPaginator] first sends one GET whose
    [per_page] parameter is the page size and whose [cursor] parameter is
    the saved cursor when the paginator has started and the cursor is
    truthy; otherwise [cursor] (and every other parameter) is the one the
    paginator was built with. *)
Theorem cursor_get_page_request (w : world) (key : string)
  (Hk : kind (pag w) = CursorPaginator key) :
  exists ps rest,
    calls (fst (get_page None w)) = calls w ++ Get (path (pag w)) (Some ps) :: rest /\
    forall k, dict_get ps k =
      if String.eqb k "per_page" then Some (JNum (per_page (pag w)))
      else if String.eqb k "cursor" && truthy (next_cursor (pag w)) && has_started (pag w)
      then Some (next_cursor (pag w))
      else dict_get (params (pag w)) k.
Proof.
  destruct (get_page_first_call w) as [rest Hc].
  exists (build_page_params (pag w)), rest. split; [exact Hc|].
  intros k. apply (cursor_params_lookup _ key). exact Hk.
Qed.

(** ** The end-of-stream test *)

Lemma ceil_div_lt (cur c pp : Z) :
  0 < pp -> (cur <? (c + pp - 1) / pp) = (cur * pp <? c).
Proof.
  intros Hpp.
  pose proof (Z.div_mod (c + pp - 1) pp ltac:(lia)) as Hd.
  pose proof (Z.mod_pos_bound (c + pp - 1) pp Hpp) as Hb.
  set (q := (c + pp - 1) / pp) in *. set (r := (c + pp - 1) mod pp) in *.
  destruct (Z.ltb_spec cur q), (Z.ltb_spec (cur * pp) c); try reflexivity; nia.
Qed.

(** X3: for an [OffsetPaginator] that has pagination info, [_has_more_pages]
    returns a non-null [has_more] as it is, whatever the count says;
    otherwise, from a count [c] and a positive page size, it answers
    whether the pages up to the current one hold fewer than [c] items;
    a page size of 0 makes it raise [ZeroDivisionError]. *)
Theorem offset_has_more_from_count (w : world) (key : string) (i : PaginationInfo)
  (Hk : kind (pag w) = OffsetPaginator key) (Hi : pagination_info (pag w) = Some i) :
  (pi_has_more i <> JNull -> has_more_pages w = (w, Ret (pi_has_more i))) /\
  (forall c, pi_has_more i = JNull -> pi_count i = JNum c -> 0 < per_page (pag w) ->
     has_more_pages w = (w, Ret (JBool (current_page (pag w) * per_page (pag w) <? c)))) /\
  (forall c, pi_has_more i = JNull -> pi_count i = JNum c -> per_page (pag w) = 0 ->
     has_more_pages w = (w, Exc ZeroDivisionError)).
Proof.
  unfold has_more_pages. rewrite mbind_get_pag, Hk, Hi.
  split; [|split].
  - intros H. destruct (pi_has_more i); [contradiction|reflexivity..].
  - intros c Hh Hc Hpp. rewrite Hh, Hc. cbn.
    unfold py_floordiv. rewrite (proj2 (Z.eqb_neq (per_page (pag w)) 0)) by lia. cbn.
    rewrite ceil_div_lt by exact Hpp. reflexivity.
  - intros c Hh Hc Hpp. rewrite Hh, Hc. cbn. unfold py_floordiv. rewrite Hpp. reflexivity.
Qed.

(** ** The cursor saved from a response *)

Lemma py_get_obj (kvs : list (string * json)) (k : string) (d : json) :
  py_get (JObj kvs) k d = Ret (default d (obj_find k kvs)).
Proof. unfold py_get. destruct (obj_find k kvs); reflexivity. Qed.

Lemma from_response_obj (kvs : list (string * json)) :
  from_response (JObj kvs) =
  Ret (mkPaginationInfo
         (default JNull (obj_find "page" kvs)) (default JNull (obj_find "per_page" kvs))
         (default JNull (obj_find "count" kvs)) (default JNull (obj_find "next_page" kvs))
         (default JNull (obj_find "previous_page" kvs)) (default JNull (obj_find "has_more" kvs))).
Proof. unfold from_response. rewrite !py_get_obj. reflexivity. Qed.

Lemma update_cursor_run (w : world) (key : string) (kvs : list (string * json))
  (Hk : kind (pag w) = CursorPaginator key) :
  let nc := default JNull (obj_find "next_cursor" kvs) in
  let ac := default JNull (obj_find "after_cursor" kvs) in
  let saved :=
    if truthy (py_or nc ac) then py_or nc ac
    else match obj_find "links" kvs with
         | Some (JObj lk) => match obj_find "next" lk with
                             | Some v => JStr (py_str v)
                             | None => py_or nc ac
                             end
         | _ => py_or nc ac
         end in
  (forall lk, obj_find "links" kvs = Some lk -> truthy (py_or nc ac) = false ->
     exists lkv, lk = JObj lkv) ->
  let p' := set_has_started
              (set_next_cursor
                 (set_pagination_info (pag w) (Some (mkPaginationInfo
                    (default JNull (obj_find "page" kvs)) (default JNull (obj_find "per_page" kvs))
                    (default JNull (obj_find "count" kvs)) (default JNull (obj_find "next_page" kvs))
                    (default JNull (obj_find "previous_page" kvs))
                    (default JNull (obj_find "has_more" kvs))))) saved) true in
  update_pagination_state (JObj kvs) w = has_more_pages (mkWorld p' (calls w)).
Proof.
  intros nc ac saved Hl p'.
  unfold update_pagination_state. rewrite mbind_get_pag, Hk.
  rewrite from_response_obj, !py_get_obj.
  unfold mbind, lift, modify_pag, mret, get_pag.
  cbn -[has_more_pages py_or truthy obj_find].
  fold nc ac. unfold p', saved.
  destruct (truthy (py_or nc ac)) eqn:Et; cbn -[has_more_pages py_or truthy obj_find];
    [reflexivity|].
  destruct (obj_find "links" kvs) as [lk|] eqn:El; cbn -[has_more_pages py_or truthy obj_find];
    [|reflexivity].
  destruct (Hl lk eq_refl eq_refl) as [lkv ->]. cbn -[has_more_pages py_or truthy obj_find].
  destruct (obj_find "next" lkv); cbn -[has_more_pages py_or truthy obj_find]; reflexivity.
Qed.

(** X4: [CursorPaginator._update_pagination_state] on a decoded response
    object whose [links], if present, is an object sends no request and
    marks the paginator started.  It saves [next_cursor or after_cursor]
    when that is truthy; otherwise it saves [str(links["next"])] when
    [links] has a [next] key, and [next_cursor or after_cursor] when it has
    none or there is no [links]. *)
Theorem cursor_update_saves_cursor (w : world) (key : string) (kvs : list (string * json))
  (Hk : kind (pag w) = CursorPaginator key)
  (Hl : forall lk, obj_find "links" kvs = Some lk -> exists lkv, lk = JObj lkv) :
  let nc := default JNull (obj_find "next_cursor" kvs) in
  let ac := default JNull (obj_find "after_cursor" kvs) in
  let w' := fst (update_pagination_state (JObj kvs) w) in
  calls w' = calls w /\ has_started (pag w') = true /\
  (truthy (py_or nc ac) = true -> next_cursor (pag w') = py_or nc ac) /\
  (forall lk v, truthy (py_or nc ac) = false -> obj_find "links" kvs = Some (JObj lk) ->
     obj_find "next" lk = Some v -> next_cursor (pag w') = JStr (py_str v)) /\
  (forall lk, truthy (py_or nc ac) = false -> obj_find "links" kvs = Some (JObj lk) ->
     obj_find "next" lk = None -> next_cursor (pag w') = py_or nc ac) /\
  (truthy (py_or nc ac) = false -> obj_find "links" kvs = None -> next_cursor (pag w') = py_or nc ac).
Proof.
  intros nc ac w'.
  assert (Hl' : forall lk, obj_find "links" kvs = Some lk -> truthy (py_or nc ac) = false ->
                exists lkv, lk = JObj lkv) by (intros lk H _; exact (Hl lk H)).
  pose proof (update_cursor_run w key kvs Hk Hl') as E. cbv zeta in E.
  unfold w'. rewrite E, has_more_pages_world. cbn -[py_or truthy obj_find]. fold nc ac.
  repeat split.
  - intros Et. rewrite Et. reflexivity.
  - intros lk v Et El Hv. rewrite Et, El, Hv. reflexivity.
  - intros lk Et El Hv. rewrite Et, El, Hv. reflexivity.
  - intros Et El. rewrite Et, El. reflexivity.
Qed.

(** X5: a [CursorPaginator] response whose saved cursor is falsy but not
    [None] (for instance an [after_cursor] of [""]), with neither [links]
    nor a non-null [has_more], makes [_update_pagination_state] report
    more pages, while the next request carries no cursor: its parameters
    are those of the first request of the traversal. *)
Theorem cursor_blank_cursor_restarts (w : world) (key : string) (kvs : list (string * json))
  (Hk : kind (pag w) = CursorPaginator key)
  (Hl : obj_find "links" kvs = None)
  (Hm : is_none (default JNull (obj_find "has_more" kvs)) = true)
  (Hb : truthy (py_or (default JNull (obj_find "next_cursor" kvs))
                      (default JNull (obj_find "after_cursor" kvs))) = false)
  (Hn : is_none (py_or (default JNull (obj_find "next_cursor" kvs))
                       (default JNull (obj_find "after_cursor" kvs))) = false) :
  snd (update_pagination_state (JObj kvs) w) = Ret (JBool true) /\
  build_page_params (pag (fst (update_pagination_state (JObj kvs) w)))
    = dict_update (params (pag w)) [("per_page", JNum (per_page (pag w)))].
Proof.
  assert (Hl' : forall lk, obj_find "links" kvs = Some lk ->
                truthy (py_or (default JNull (obj_find "next_cursor" kvs))
                              (default JNull (obj_find "after_cursor" kvs))) = false ->
                exists lkv, lk = JObj lkv) by (intros; congruence).
  pose proof (update_cursor_run w key kvs Hk Hl') as E. cbv zeta in E.
  rewrite E, has_more_pages_world. rewrite Hb, Hl.
  split.
  - unfold has_more_pages. rewrite mbind_get_pag. cbn -[py_or truthy obj_find].
    rewrite Hk. cbn -[py_or truthy obj_find]. rewrite Hm. cbn -[py_or truthy obj_find].
    rewrite Hn. reflexivity.
  - unfold build_page_params, get_page_params. cbn -[py_or truthy obj_find].
    rewrite Hk, Hb. reflexivity.
Qed.

(** ** Sideloaded users *)

Lemma fold_users_lookup (us : list User) (m0 : gmap Z User) (k : Z) :
  fold_left (fun (m : gmap Z User) u =>
               match user_id u with Some i => <[i := u]> m | None => m end) us m0 !! k =
  match last (List.filter (fun u => bool_decide (user_id u = Some k)) us) with
  | Some u => Some u
  | None => m0 !! k
  end.
Proof.
  revert m0. induction us as [|u us IH]; intros m0; [reflexivity|].
  cbn [fold_left List.filter]. rewrite IH.
  case_bool_decide as Hu.
  - rewrite last_cons, Hu, lookup_insert_eq.
    destruct (last (List.filter (fun u => bool_decide (user_id u = Some k)) us)); reflexivity.
  - destruct (last (List.filter (fun u => bool_decide (user_id u = Some k)) us)); [reflexivity|].
    destruct (user_id u) as [i|] eqn:Ei; [|reflexivity].
    apply lookup_insert_ne. congruence.
Qed.

Lemma parse_user_data (d : json) (u : User) : parse_user d = Ret u -> user_data u = d.
Proof.
  destruct d; cbn; try discriminate.
  destruct (opt_int_field kvs "id"); intros H; inversion H; reflexivity.
Qed.

Lemma map_res_parse_user_data (datas : list json) (us : list User) :
  map_res parse_user datas = Ret us -> map user_data us = datas.
Proof.
  revert us. induction datas as [|d ds IH]; intros us; cbn.
  - intros H. injection H as <-. reflexivity.
  - destruct (parse_user d) as [u|e|] eqn:Eu; try discriminate.
    destruct (map_res parse_user ds) as [us'|e|]; try discriminate.
    intros H. injection H as <-. cbn. rewrite (parse_user_data d u Eu), IH; reflexivity.
Qed.

(** X6: a successful [_extract_users_from_response] parses the [users]
    list of the response (one [User] per listed object, in order) and
    maps each id to the last listed user with that id; users without an
    id are left out. *)
Theorem extract_users_keyed (response : json) (m : gmap Z User) :
  extract_users_from_response response = Ret m ->
  exists v datas us,
    py_get response "users" (JArr []) = Ret v /\ py_iter v = Ret datas /\
    map_res parse_user datas = Ret us /\ map user_data us = datas /\
    forall k, m !! k = last (List.filter (fun u => bool_decide (user_id u = Some k)) us).
Proof.
  unfold extract_users_from_response.
  destruct (py_get response "users" (JArr [])) as [v|e|]; try discriminate.
  destruct (py_iter v) as [datas|e|] eqn:Ev; try discriminate.
  destruct (map_res parse_user datas) as [us|e|] eqn:Eus; try discriminate.
  intros H. injection H as <-.
  exists v, datas, us.
  refine (conj eq_refl (conj Ev (conj Eus (conj (map_res_parse_user_data _ _ Eus) _)))).
  intros k. rewrite fold_users_lookup, lookup_empty.
  destruct (last _); reflexivity.
Qed.

(** ** The users of one ticket *)

Lemma elem_truthy_id (o : option Z) (k : Z) :
  k ∈ (if truthy_id o then {[default 0 o]} else ∅ : gset Z) <-> k <> 0 /\ o = Some k.
Proof.
  destruct o as [n|]; cbn.
  - destruct (Z.eqb_spec n 0) as [->|Hn]; cbn.
    + split; [set_solver|intros [H1 H2]; injection H2; lia].
    + rewrite elem_of_singleton. split; [intros ->; auto|intros [_ H]; injection H; auto].
  - split; [set_solver|intros [_ H]; discriminate].
Qed.

Lemma elem_truthy_ids (o : option (list Z)) (k : Z) :
  k ∈ (list_to_set (truthy_ids o) : gset Z) <-> exists l, o = Some l /\ k ∈ l.
Proof.
  rewrite elem_of_list_to_set.
  destruct o as [[|x l]|]; cbn [truthy_ids].
  - split; [intros H; apply elem_of_nil in H; contradiction|].
    intros (l' & Hl & H). injection Hl as <-. apply elem_of_nil in H. contradiction.
  - split; [intros H; exists (x :: l); split; [reflexivity|exact H]|].
    intros (l' & Hl & H). injection Hl as <-. exact H.
  - split; [intros H; apply elem_of_nil in H; contradiction|].
    intros (l' & Hl & _). discriminate.
Qed.

(** X7: in the records a successful [_build_enriched_tickets] returns, no
    user leaks from one ticket to another: for any id, the user map of
    record [i] gives the user of that ticket's own comments response if
    there is one, else the batch's user when the ticket references the id,
    and nothing when it does not.  A ticket references its requester,
    assignee or submitter id when not 0, and any member of its
    collaborator or follower list (0 included). *)
Theorem enriched_users_scoped (tickets : list Ticket) (tu : gmap Z User) (w : world)
  (l : list EnrichedTicket) :
  snd (build_enriched_tickets tickets tu w) = Ret l ->
  forall i e, l !! i = Some e ->
    exists t cs cu w1 w2,
      List.filter has_id tickets !! i = Some t /\
      fetch_comments_with_users (default 0 (id t)) w1 = (w2, Ret (cs, cu)) /\
      (forall k, users e !! k =
         match cu !! k with
         | Some u => Some u
         | None => if bool_decide (k ∈ ticket_user_ids t) then tu !! k else None
         end) /\
      (forall k, k ∈ ticket_user_ids t <->
         (k <> 0 /\ (requester_id t = Some k \/ assignee_id t = Some k \/ submitter_id t = Some k)) \/
         (exists l, collaborator_ids t = Some l /\ k ∈ l) \/
         (exists l, follower_ids t = Some l /\ k ∈ l)).
Proof.
  intros H i e Hi.
  destruct (enriched_slots tickets tu w l H) as [_ Hs].
  destruct (Hs i e Hi) as (t & cs & cu & w1 & w2 & Ht & -> & Hf).
  exists t, cs, cu, w1, w2. split; [exact Ht|]. split; [exact Hf|]. split.
  - intros k. cbn [users]. rewrite lookup_union. unfold scoped_users. rewrite map_lookup_filter.
    destruct (cu !! k) as [u|], (tu !! k) as [v|]; cbn; try reflexivity;
      try case_guard as Hm; cbn; try case_bool_decide; try reflexivity; contradiction.
  - intros k. unfold ticket_user_ids. rewrite !elem_of_union, !elem_truthy_id, !elem_truthy_ids.
    tauto.
Qed.


(** ** The GETs of the enrichment helpers *)

(** [m] leaves the world as it is: no attribute written, no GET. *)
Definition world_pure {A} (m : M A) : Prop := forall w, fst (m w) = w.

Lemma world_pure_ret {A} (a : A) : world_pure (mret a).
Proof. intros w. reflexivity. Qed.

Lemma world_pure_lift {A} (r : res A) : world_pure (lift r).
Proof. intros w. reflexivity. Qed.

Lemma world_pure_raise {A} (e : exn) : world_pure (A:=A) (mraise e).
Proof. intros w. reflexivity. Qed.

Lemma world_pure_stuck {A} : world_pure (A:=A) mstuck.
Proof. intros w. reflexivity. Qed.

Lemma world_pure_bind {A B} (m : M A) (k : A -> M B) :
  world_pure m -> (forall a, world_pure (k a)) -> world_pure (mbind m k).
Proof.
  intros Hm Hk w. unfold mbind. specialize (Hm w).
  destruct (m w) as [w1 [a|e|]]; cbn in *; [rewrite Hk|..]; exact Hm.
Qed.

Lemma bind_world_pure {A B} (m : M A) (k : A -> M B) (w : world) :
  (forall a, world_pure (k a)) -> fst (mbind m k w) = fst (m w).
Proof. intros Hk. unfold mbind. destruct (m w) as [w1 [a|e|]]; [apply Hk|reflexivity..]. Qed.

Ltac pure_tac :=
  repeat first
    [ apply world_pure_ret
    | apply world_pure_lift
    | apply world_pure_raise
    | apply world_pure_stuck
    | apply world_pure_bind; [|intro]
    | match goal with |- world_pure (match ?x with _ => _ end) => destruct x end ].

Lemma map_res_not_stuck {A B} (f : A -> res B) (xs : list A) :
  (forall x, f x <> Stuck) -> map_res f xs <> Stuck.
Proof.
  intros Hf. induction xs as [|x rest IH]; cbn; [discriminate|].
  specialize (Hf x). destruct (f x); [|discriminate|contradiction].
  destruct (map_res f rest); [discriminate|discriminate|contradiction].
Qed.

Lemma extract_users_not_stuck (r : json) : extract_users_from_response r <> Stuck.
Proof.
  unfold extract_users_from_response.
  destruct (py_get r "users" (JArr [])) as [v|e|] eqn:Eg; [|discriminate|].
  - destruct (py_iter v) as [ds|e|] eqn:Ei; [|discriminate|destruct v; discriminate].
    destruct (map_res parse_user ds) eqn:Em; try discriminate.
    exfalso. revert Em. apply map_res_not_stuck.
    intros d. unfold parse_user. destruct d; try discriminate.
    destruct (opt_int_field kvs "id"); discriminate.
  - unfold py_get in Eg. destruct r; try discriminate. destruct (obj_find _ _); discriminate.
Qed.

Lemma http_then_pure {A} (r : request) (k : json -> M A) (w : world) :
  (forall a, world_pure (k a)) -> fst (mbind (http_get r) k w) = mkWorld (pag w) (calls w ++ [r]).
Proof.
  intros Hk. rewrite bind_world_pure by exact Hk.
  unfold http_get. destruct (server (calls w) r); reflexivity.
Qed.

(** [_fetch_comments_with_users] sends exactly its comments GET, writes no
    attribute, and never runs out of fuel. *)
Lemma fetch_comments_world (i : Z) (w : world) :
  fst (fetch_comments_with_users i w) = mkWorld (pag w) (calls w ++ [comments_request i]) /\
  snd (fetch_comments_with_users i w) <> Stuck.
Proof.
  split.
  - unfold fetch_comments_with_users. apply http_then_pure. intros a. pure_tac.
  - unfold fetch_comments_with_users, http_get, mbind, lift, mret.
    destruct (server (calls w) (comments_request i)) as [e|body]; cbn; [discriminate|].
    destruct (py_get body "comments" (JArr [])) as [raw|e|] eqn:Eg; cbn; [|discriminate|].
    2: { exfalso. unfold py_get in Eg. destruct body; try discriminate.
         destruct (obj_find _ _); discriminate. }
    destruct (py_iter raw) as [ds|e|] eqn:Ei; cbn; [|discriminate|].
    2: { exfalso. destruct raw; discriminate. }
    destruct (map_res parse_comment ds) as [cs|e|] eqn:Em; cbn; [|discriminate|].
    2: { exfalso. revert Em. apply map_res_not_stuck. intros d. unfold parse_comment.
         destruct d; try discriminate. destruct (opt_int_field kvs "author_id"); discriminate. }
    pose proof (extract_users_not_stuck body) as Hs.
    destruct (extract_users_from_response body); cbn; [discriminate|discriminate|contradiction].
Qed.

Lemma run_tasks_calls (valid : list Ticket) (order : list nat) :
  Forall (fun k => (k < length valid)%nat) order ->
  forall w,
  fst (run_tasks order (map (fun t => fetch_comments_with_users (default 0 (id t))) valid) w)
    = mkWorld (pag w) (calls w ++ map (fun k => comments_request (default 0 (valid !! k ≫= id))) order).
Proof.
  induction order as [|k rest IH]; intros Hord w; cbn [run_tasks].
  - cbn. rewrite app_nil_r. destruct w; reflexivity.
  - inversion Hord as [|k' rest' Hk Hrest]; subst.
    rewrite list_lookup_fmap.
    destruct (valid !! k) as [t|] eqn:Et; [|apply lookup_ge_None in Et; lia].
    cbn [fmap option_fmap option_map].
    destruct (fetch_comments_world (default 0 (id t)) w) as [Hw Hs].
    unfold mbind at 1. unfold mtry.
    destruct (fetch_comments_with_users (default 0 (id t)) w) as [w1 [a|e|]] eqn:Ef;
      cbn in Hw, Hs; try contradiction; subst w1;
      rewrite bind_world_pure by (intros; apply world_pure_ret);
      rewrite IH by exact Hrest; cbn; rewrite Et, <- app_assoc; reflexivity.
Qed.

Lemma gather_world {A} (order : list nat) (tasks : list (M A)) (w : world) :
  fst (gather order tasks w) = fst (run_tasks order tasks w).
Proof.
  unfold gather. apply bind_world_pure. intros rs.
  destruct (first_exn rs); [apply world_pure_raise|].
  destruct (mapM _ _); [apply world_pure_ret|apply world_pure_stuck].
Qed.

Lemma map_seq_lookup {A B} (f : option A -> B) (l : list A) :
  map (fun k => f (l !! k)) (seq 0 (length l)) = map (fun x => f (Some x)) l.
Proof.
  apply list_eq. intros i. rewrite !list_lookup_fmap.
  destruct (l !! i) as [x|] eqn:Ei.
  - rewrite lookup_seq_lt by (apply lookup_lt_Some in Ei; exact Ei). cbn. rewrite Ei. reflexivity.
  - rewrite lookup_seq_ge by (apply lookup_ge_None in Ei; exact Ei). reflexivity.
Qed.

(** The GETs of [_build_enriched_tickets], whatever its outcome. *)
Lemma build_enriched_calls (tickets : list Ticket) (tu : gmap Z User) (w : world) :
  Permutation (completion_order (length (List.filter has_id tickets)))
              (seq 0 (length (List.filter has_id tickets))) ->
  pag (fst (build_enriched_tickets tickets tu w)) = pag w /\
  exists l, calls (fst (build_enriched_tickets tickets tu w)) = calls w ++ l /\
    Permutation l (map (fun t => comments_request (default 0 (id t))) (List.filter has_id tickets)).
Proof.
  intros Hord. unfold build_enriched_tickets.
  destruct tickets as [|t0 ts]; [split; [reflexivity|exists []; split; [rewrite app_nil_r|]; reflexivity]|].
  cbv zeta.
  destruct (List.filter has_id (t0 :: ts)) as [|v0 vs] eqn:Ev.
  { split; [reflexivity|exists []; split; [rewrite app_nil_r|]; reflexivity]. }
  rewrite <- Ev in Hord |- *. clear v0 vs Ev.
  set (valid := List.filter has_id (t0 :: ts)) in *. clearbody valid.
  rewrite bind_world_pure by (intros; apply world_pure_ret).
  rewrite gather_world, run_tasks_calls.
  2: { rewrite Forall_forall. intros k Hk. apply list_elem_of_In in Hk.
       rewrite Hord in Hk. apply list_elem_of_In, elem_of_seq in Hk. lia. }
  split; [reflexivity|].
  eexists. split; [reflexivity|].
  rewrite Hord.
  rewrite (map_seq_lookup (fun o => comments_request (default 0 (o ≫= id)))). reflexivity.
Qed.

(** X8: [_build_enriched_tickets] sends one comments GET per ticket that
    has an id (in the order the fetches run, for any schedule that runs
    each task once) and no other GET, whether it succeeds or raises; with
    no ticket that has an id it sends nothing. *)
Theorem enrich_batch_calls (tickets : list Ticket) (tu : gmap Z User) (w : world)
  (Hord : Permutation (completion_order (length (List.filter has_id tickets)))
                      (seq 0 (length (List.filter has_id tickets)))) :
  pag (fst (build_enriched_tickets tickets tu w)) = pag w /\
  exists l, calls (fst (build_enriched_tickets tickets tu w)) = calls w ++ l /\
    Permutation l (map (fun t => comments_request (default 0 (id t))) (List.filter has_id tickets)).
Proof. exact (build_enriched_calls tickets tu w Hord). Qed.

(** X9: [for_organization_enriched] and [for_user_enriched] send their
    one list GET (with [include=users]); once it answers and its tickets
    and sideloaded users parse, the result is [_build_enriched_tickets] on
    those tickets and users, and the only other GETs are the comments GETs
    of the tickets that have an id: no [show_many] GET. *)
Theorem list_enriched_run (r : request) (w : world) (body raw : json) (datas : list json)
  (ts : list Ticket) (tu : gmap Z User)
  (Hs : server (calls w) r = inr body)
  (Hraw : py_get body "tickets" (JArr []) = Ret raw) (Hi : py_iter raw = Ret datas)
  (Ht : map_res parse_ticket datas = Ret ts) (Hu : extract_users_from_response body = Ret tu)
  (Hord : Permutation (completion_order (length (List.filter has_id ts)))
                      (seq 0 (length (List.filter has_id ts)))) :
  list_enriched r w = build_enriched_tickets ts tu (mkWorld (pag w) (calls w ++ [r])) /\
  exists l, calls (fst (list_enriched r w)) = calls w ++ r :: l /\
    Permutation l (map (fun t => comments_request (default 0 (id t))) (List.filter has_id ts)).
Proof.
  assert (E : list_enriched r w = build_enriched_tickets ts tu (mkWorld (pag w) (calls w ++ [r]))).
  { unfold list_enriched, http_get, mbind at 1. rewrite Hs.
    unfold mbind, lift. rewrite Hraw, Hi, Ht, Hu. reflexivity. }
  split; [exact E|]. rewrite E.
  destruct (build_enriched_calls ts tu (mkWorld (pag w) (calls w ++ [r])) Hord) as [_ (l & Hc & Hp)].
  exists l. split; [rewrite Hc; cbn; rewrite <- app_assoc; reflexivity|exact Hp].
Qed.

Lemma mbind_ret_inv {A B} (m : M A) (k : A -> M B) (w : world) (x : B) :
  snd (mbind m k w) = Ret x ->
  exists w1 a, m w = (w1, Ret a) /\ snd (k a w1) = Ret x /\ fst (mbind m k w) = fst (k a w1).
Proof.
  unfold mbind. destruct (m w) as [w1 [a|e|]]; intros H; try discriminate.
  exists w1, a. auto.
Qed.

Lemma lift_ret_inv {A} (r : res A) (w w1 : world) (a : A) :
  lift r w = (w1, Ret a) -> r = Ret a /\ w1 = w.
Proof. unfold lift. intros H. injection H as -> ->. auto. Qed.

Lemma http_get_ret_inv (r : request) (w w1 : world) (body : json) :
  http_get r w = (w1, Ret body) ->
  server (calls w) r = inr body /\ w1 = mkWorld (pag w) (calls w ++ [r]).
Proof.
  unfold http_get. destruct (server (calls w) r) as [e|b]; intros H; inversion H; auto.
Qed.

(** X10: a successful [ZendeskClient.search_enriched_tickets] reads only
    the first search page: it sends one search GET, then at most one
    [show_many] GET, then one comments GET per ticket result that has an
    id, and nothing else. *)
Theorem search_enriched_tickets_calls (q : string) (pp : Z) (w : world)
  (es : list EnrichedTicket)
  (Hord : forall n, Permutation (completion_order n) (seq 0 n))
  (Hok : snd (search_enriched_tickets q pp w) = Ret es) :
  exists body raw rs ts u l,
    server (calls w) (search_once_request q pp) = inr body /\
    py_get body "results" (JArr []) = Ret raw /\ py_iter raw = Ret rs /\
    page_tickets rs = Ret ts /\
    calls (fst (search_enriched_tickets q pp w)) = calls w ++ search_once_request q pp :: u ++ l /\
    (u = [] \/ exists ids, u = [show_many_request ids]) /\
    Permutation l (map (fun t => comments_request (default 0 (id t))) (List.filter has_id ts)).
Proof.
  unfold search_enriched_tickets in *.
  apply mbind_ret_inv in Hok as (w1 & body & Hg & Hok & ->).
  apply http_get_ret_inv in Hg as [Hs ->].
  apply mbind_ret_inv in Hok as (w2 & raw & Hr & Hok & ->). apply lift_ret_inv in Hr as [Hr ->].
  apply mbind_ret_inv in Hok as (w3 & rs & Hi & Hok & ->). apply lift_ret_inv in Hi as [Hi ->].
  apply mbind_ret_inv in Hok as (w4 & ts & Ht & Hok & ->). apply lift_ret_inv in Ht as [Ht ->].
  exists body, raw, rs, ts.
  destruct ts as [|t0 ts'].
  { exists [], []. cbn. repeat split; auto. }
  cbv zeta in Hok |- *.
  apply mbind_ret_inv in Hok as (w5 & tu & Hb & Hok & ->).
  set (ids := collect_user_ids_from_tickets (t0 :: ts')) in *.
  set (w0 := mkWorld (pag w) (calls w ++ [search_once_request q pp])) in *.
  assert (Hu : exists u, w5 = mkWorld (pag w) (calls w0 ++ u) /\
                         (u = [] \/ exists ids', u = [show_many_request ids'])).
  { unfold fetch_users_batch in Hb. destruct ids as [|i0 is].
    - injection Hb as <- _. exists []. rewrite app_nil_r. split; [destruct w; reflexivity|auto].
    - unfold mbind, http_get, lift in Hb. cbv zeta in Hb.
      destruct (server (calls w0) _) as [e|resp]; [discriminate|].
      destruct (extract_users_from_response resp); try discriminate.
      injection Hb as <- _. eexists. split; [reflexivity|right; eauto]. }
  destruct Hu as (u & -> & Hu).
  destruct (build_enriched_calls (t0 :: ts') tu (mkWorld (pag w) (calls w0 ++ u)) (Hord _))
    as [_ (l & Hc & Hp)].
  exists u, l. repeat split; auto.
  rewrite Hc. cbn. rewrite <- !app_assoc. reflexivity.
Qed.

(** ** The [limit] of the search generators *)

Ltac inv_bind H :=
  let w1 := fresh "w" in let a := fresh "a" in let H1 := fresh "Hm" in
  apply mbind_inv in H as [(w1 & a & H1 & H)|[(? & ? & ?)|(? & ?)]];
  [cbv beta in H|discriminate|discriminate].

Lemma limit_reached_pos (l c : Z) : 0 < l -> limit_reached (Some l) c = (l <=? c).
Proof. intros Hl. unfold limit_reached. rewrite (proj2 (Z.eqb_neq l 0)) by lia. reflexivity. Qed.

(** How many more items [SearchClient.tickets] may yield from a state. *)
Definition tk_budget (l : Z) (st : tickets_state) : Z :=
  match st with TkStart _ _ => l | TkRun _ c => l - c | TkDone => 0 end.

Definition tk_inv (l : Z) (st : tickets_state) : Prop :=
  match st with TkRun _ c => 0 <= c < l | _ => True end.

Lemma tickets_next_budget (l : Z) (Hl : 0 < l) (fuel : nat) :
  forall st w w' st' t, tk_inv l st ->
  tickets_next (Some l) fuel st w = (w', Ret (st', Some t)) ->
  tk_inv l st' /\ tk_budget l st' = tk_budget l st - 1.
Proof.
  induction fuel as [|f IH]; intros st w w' st' t Hinv H; [discriminate|].
  destruct st as [q pp|inner count|]; cbn [tickets_next] in H.
  - inv_bind H. apply IH in H as [H1 H2]; [split; [exact H1|cbn in H2 |- *; lia]|cbn; lia].
  - inv_bind H. destruct a as [st1 [item|]]; cbn [snd fst] in H; [|discriminate].
    inv_bind H. apply lift_ret_inv in Hm0 as [_ ->].
    destruct (match a with JStr s => String.eqb s "ticket" | _ => false end).
    + inv_bind H. apply lift_ret_inv in Hm0 as [_ ->].
      rewrite limit_reached_pos in H by exact Hl. cbn in Hinv.
      destruct (Z.leb_spec l (count + 1)); injection H as _ <- _; cbn; lia.
    + apply IH in H; [exact H|exact Hinv].
  - discriminate.
Qed.

Lemma tickets_drain_budget (l : Z) (Hl : 0 < l) (fuel : nat) :
  forall st w w' ts, tk_inv l st ->
  tickets_drain (Some l) fuel st w = (w', Ret ts) ->
  Z.of_nat (length ts) <= tk_budget l st.
Proof.
  induction fuel as [|f IH]; intros st w w' ts Hinv H; [discriminate|].
  cbn [tickets_drain] in H. inv_bind H.
  destruct a as [st' [t|]] eqn:Ea; cbn [snd fst] in H.
  - apply tickets_next_budget in Hm as [Hinv' Hb]; [|exact Hl|exact Hinv].
    inv_bind H. injection H as _ <-. apply IH in Hm; [|exact Hinv'].
    cbn [length]. lia.
  - injection H as _ <-. cbn [length].
    destruct st; cbn in Hinv |- *; lia.
Qed.

(** X11: [SearchClient.tickets] with a positive [limit] yields at most
    [limit] tickets. *)
Theorem tickets_limit_bound (l : Z) (q : string) (pp : Z) (fuel : nat) (w : world)
  (ts : list Ticket) (Hl : 0 < l)
  (Hok : snd (tickets_drain (Some l) fuel (TkStart q pp) w) = Ret ts) :
  Z.of_nat (length ts) <= l.
Proof.
  destruct (tickets_drain (Some l) fuel (TkStart q pp) w) as [w' r] eqn:E.
  cbn in Hok. subst r.
  exact (tickets_drain_budget l Hl fuel (TkStart q pp) w w' ts I E).
Qed.

(** How many more items [TicketsClient.search_enriched] may yield. *)
Definition se_budget (l : Z) (st : search_enriched_state) : Z :=
  match st with SeStart _ _ => l | SeRun _ c _ => l - c | SeDone => 0 end.

Definition se_inv (l : Z) (st : search_enriched_state) : Prop :=
  match st with SeRun _ c _ => 0 <= c < l | _ => True end.

Lemma search_enriched_next_budget (l : Z) (Hl : 0 < l) (fuel : nat) :
  forall st w w' st' e, se_inv l st ->
  search_enriched_next (Some l) fuel st w = (w', Ret (st', Some e)) ->
  se_inv l st' /\ se_budget l st' = se_budget l st - 1.
Proof.
  induction fuel as [|f IH]; intros st w w' st' e Hinv H; [discriminate|].
  destruct st as [q pp|pages count [|e0 rest]|]; cbn [search_enriched_next] in H.
  - inv_bind H. apply IH in H as [H1 H2]; [split; [exact H1|cbn in H2 |- *; lia]|cbn; lia].
  - inv_bind H. destruct a as [pg [page_data|]]; cbn [snd fst] in H; [|discriminate].
    inv_bind H. apply lift_ret_inv in Hm0 as [_ ->].
    inv_bind H. apply lift_ret_inv in Hm0 as [_ ->].
    destruct a0 as [|t0 ts'].
    + apply IH in H; [exact H|exact Hinv].
    + cbv zeta in H. inv_bind H. inv_bind H. apply IH in H; [exact H|exact Hinv].
  - rewrite limit_reached_pos in H by exact Hl. cbn in Hinv.
    destruct (Z.leb_spec l (count + 1)); injection H as _ <- _; cbn; lia.
  - discriminate.
Qed.

Lemma search_enriched_drain_budget (l : Z) (Hl : 0 < l) (fuel : nat) :
  forall st w w' es, se_inv l st ->
  search_enriched_drain (Some l) fuel st w = (w', Ret es) ->
  Z.of_nat (length es) <= se_budget l st.
Proof.
  induction fuel as [|f IH]; intros st w w' es Hinv H; [discriminate|].
  cbn [search_enriched_drain] in H. inv_bind H.
  destruct a as [st' [e|]] eqn:Ea; cbn [snd fst] in H.
  - apply search_enriched_next_budget in Hm as [Hinv' Hb]; [|exact Hl|exact Hinv].
    inv_bind H. injection H as _ <-. apply IH in Hm; [|exact Hinv'].
    cbn [length]. lia.
  - injection H as _ <-. cbn [length].
    destruct st; cbn in Hinv |- *; lia.
Qed.

(** X12: [TicketsClient.search_enriched] with a positive [limit] yields at
    most [limit] enriched tickets. *)
Theorem search_enriched_limit_bound (l : Z) (q : string) (pp : Z) (fuel : nat) (w : world)
  (es : list EnrichedTicket) (Hl : 0 < l)
  (Hok : snd (search_enriched_drain (Some l) fuel (SeStart q pp) w) = Ret es) :
  Z.of_nat (length es) <= l.
Proof.
  destruct (search_enriched_drain (Some l) fuel (SeStart q pp) w) as [w' r] eqn:E.
  cbn in Hok. subst r.
  exact (search_enriched_drain_budget l Hl fuel (SeStart q pp) w w' es I E).
Qed.

(** How many more items [SearchClient.export_tickets] may yield. *)
Definition ex_budget (l : Z) (st : export_state) : Z :=
  match st with ExStart _ _ => l | ExRun _ c => l - c | ExDone => 0 end.

Definition ex_inv (l : Z) (st : export_state) : Prop :=
  match st with ExRun _ c => 0 <= c < l | _ => True end.

Lemma export_next_budget (l : Z) (Hl : 0 < l) (fuel : nat) :
  forall st w w' st' t, ex_inv l st ->
  export_tickets_next (Some l) fuel st w = (w', Ret (st', Some t)) ->
  ex_inv l st' /\ ex_budget l st' = ex_budget l st - 1.
Proof.
  induction fuel as [|f IH]; intros st w w' st' t Hinv H; [discriminate|].
  destruct st as [q ps|inner count|]; cbn [export_tickets_next] in H.
  - inv_bind H. apply IH in H as [H1 H2]; [split; [exact H1|cbn in H2 |- *; lia]|cbn; lia].
  - inv_bind H. destruct a as [st1 [item|]]; cbn [snd fst] in H; [|discriminate].
    inv_bind H. apply lift_ret_inv in Hm0 as [_ ->].
    rewrite limit_reached_pos in H by exact Hl. cbn in Hinv.
    destruct (Z.leb_spec l (count + 1)); injection H as _ <- _; cbn; lia.
  - discriminate.
Qed.

Lemma export_drain_budget (l : Z) (Hl : 0 < l) (fuel : nat) :
  forall st w w' ts, ex_inv l st ->
  export_tickets_drain (Some l) fuel st w = (w', Ret ts) ->
  Z.of_nat (length ts) <= ex_budget l st.
Proof.
  induction fuel as [|f IH]; intros st w w' ts Hinv H; [discriminate|].
  cbn [export_tickets_drain] in H. inv_bind H.
  destruct a as [st' [t|]] eqn:Ea; cbn [snd fst] in H.
  - apply export_next_budget in Hm as [Hinv' Hb]; [|exact Hl|exact Hinv].
    inv_bind H. injection H as _ <-. apply IH in Hm; [|exact Hinv'].
    cbn [length]. lia.
  - injection H as _ <-. cbn [length].
    destruct st; cbn in Hinv |- *; lia.
Qed.

(** X13: [SearchClient.export_tickets] with a positive [limit] yields at
    most [limit] tickets. *)
Theorem export_tickets_limit_bound (l : Z) (q : string) (ps : Z) (fuel : nat) (w : world)
  (ts : list Ticket) (Hl : 0 < l)
  (Hok : snd (export_tickets_drain (Some l) fuel (ExStart q ps) w) = Ret ts) :
  Z.of_nat (length ts) <= l.
Proof.
  destruct (export_tickets_drain (Some l) fuel (ExStart q ps) w) as [w' r] eqn:E.
  cbn in Hok. subst r.
  exact (export_drain_budget l Hl fuel (ExStart q ps) w w' ts I E).
Qed.

(** ** What an export traversal sends *)

(** The generator has installed its paginator. *)
Definition ex_started (st : export_state) : Prop :=
  match st with ExStart _ _ => False | _ => True end.

Lemma export_next_frame (lim : option Z) (fuel : nat) :
  forall st, ex_started st ->
  frame_ok (export_tickets_next lim fuel st) /\
  (forall w w' st' x, export_tickets_next lim fuel st w = (w', Ret (st', x)) -> ex_started st').
Proof.
  induction fuel as [|f IH]; intros st Hst.
  { split; [apply frame_ok_stuck|intros; discriminate]. }
  destruct st as [q ps|inner count|]; [contradiction| |]; cbn [export_tickets_next].
  - split.
    + apply frame_ok_bind; [apply frame_ok_aiter_next|intros [st1 [item|]]; cbn [snd fst]; framed].
    + intros w w' st' x H. inv_bind H. destruct a as [st1 [item|]]; cbn [snd fst] in H.
      * inv_bind H. destruct (limit_reached lim (count + 1)); injection H as _ <- _; exact I.
      * injection H as _ <- _. exact I.
  - split; [apply frame_ok_ret|intros w w' st' x H; injection H as _ <- _; exact I].
Qed.

(** ** A page that announces no more pages *)

Lemma update_last_page (w : world) (key : string) (kvs : list (string * json))
  (Hk : kind (pag w) = OffsetPaginator key \/ kind (pag w) = CursorPaginator key)
  (Hhm : obj_find "has_more" kvs = Some (JBool false))
  (Hl : forall lk, obj_find "links" kvs = Some lk -> exists lkv, lk = JObj lkv) :
  exists p', update_pagination_state (JObj kvs) w = (mkWorld p' (calls w), Ret (JBool false)) /\
    kind p' = kind (pag w) /\
    has_more_pages (mkWorld p' (calls w)) = (mkWorld p' (calls w), Ret (JBool false)).
Proof.
  destruct Hk as [Hk|Hk].
  - unfold update_pagination_state. rewrite mbind_get_pag, Hk, from_response_obj.
    rewrite Hhm. cbn -[has_more_pages obj_find].
    set (p' := set_pagination_info (pag w) _).
    assert (Hh : has_more_pages (mkWorld p' (calls w)) = (mkWorld p' (calls w), Ret (JBool false))).
    { unfold has_more_pages. rewrite mbind_get_pag. cbn [pag]. unfold p'. cbn. rewrite Hk.
      reflexivity. }
    exists p'. rewrite Hh. auto.
  - assert (Hl' : forall lk, obj_find "links" kvs = Some lk ->
                  truthy (py_or (default JNull (obj_find "next_cursor" kvs))
                                (default JNull (obj_find "after_cursor" kvs))) = false ->
                  exists lkv, lk = JObj lkv) by (intros lk H _; exact (Hl lk H)).
    pose proof (update_cursor_run w key kvs Hk Hl') as E. cbv zeta in E. rewrite E.
    rewrite Hhm.
    set (p' := set_has_started _ true).
    assert (Hh : has_more_pages (mkWorld p' (calls w)) = (mkWorld p' (calls w), Ret (JBool false))).
    { unfold has_more_pages. rewrite mbind_get_pag. cbn [pag]. unfold p'. cbn -[obj_find].
      rewrite Hk. reflexivity. }
    exists p'. rewrite Hh. split; [reflexivity|split; [unfold p'; cbn; reflexivity|reflexivity]].
Qed.

Lemma get_page_last (w : world) (key : string) (kvs : list (string * json)) (l : list json)
  (Hk : kind (pag w) = OffsetPaginator key \/ kind (pag w) = CursorPaginator key)
  (Hs : server (calls w) (page_request (pag w)) = inr (JObj kvs))
  (Hitems : obj_find key kvs = Some (JArr l))
  (Hhm : obj_find "has_more" kvs = Some (JBool false))
  (Hl : forall lk, obj_find "links" kvs = Some lk -> exists lkv, lk = JObj lkv) :
  exists w1, get_page None w = (w1, Ret (JArr l)) /\
    calls w1 = calls w ++ [page_request (pag w)] /\ has_more_pages w1 = (w1, Ret (JBool false)).
Proof.
  change (get_page None w) with
    (mbind (fetch_page (build_page_params (pag w)))
       (fun response => update_pagination_state response ;; extract_items response) w).
  unfold mbind at 1. unfold fetch_page, http_get, get_pag, mbind at 1. cbn [pag calls].
  change (Get (path (pag w)) (Some (build_page_params (pag w)))) with (page_request (pag w)).
  rewrite Hs.
  set (w0 := mkWorld (pag w) (calls w ++ [page_request (pag w)])).
  destruct (update_last_page w0 key kvs Hk Hhm Hl) as (p' & Eu & Hkind & Hh).
  unfold mbind. rewrite Eu.
  exists (mkWorld p' (calls w0)). split; [|split; [reflexivity|exact Hh]].
  unfold extract_items. rewrite mbind_get_pag. cbn [pag]. rewrite Hkind.
  destruct Hk as [Hk|Hk]; cbn [w0 pag]; rewrite Hk; unfold lift; rewrite py_get_obj, Hitems;
    reflexivity.
Qed.

Lemma aiter_fetch_ok (f : nat) (w w1 : world) (l : list json) :
  get_page None w = (w1, Ret (JArr l)) -> aiter_next (S f) AFetch w = aiter_next f (AItems l) w1.
Proof. intros H. cbn [aiter_next]. unfold mtry, mbind at 1 2. rewrite H. reflexivity. Qed.

Lemma aiter_drain_some (f : nat) (st st1 : aiter_state) (w w1 : world) (x : json) :
  aiter_next (S f) st w = (w1, Ret (st1, Some x)) ->
  aiter_drain (S f) st w = (let! xs := aiter_drain f st1 in mret (x :: xs)) w1.
Proof.
  intros H. change (aiter_drain (S f) st w) with
    (mbind (aiter_next (S f) st) (fun step => match snd step with
      | None => mret [] | Some x => let! xs := aiter_drain f (fst step) in mret (x :: xs) end) w).
  unfold mbind at 1. rewrite H. reflexivity.
Qed.

Lemma aiter_drain_none (f : nat) (st st1 : aiter_state) (w w1 : world) :
  aiter_next (S f) st w = (w1, Ret (st1, None)) -> aiter_drain (S f) st w = (w1, Ret []).
Proof.
  intros H. change (aiter_drain (S f) st w) with
    (mbind (aiter_next (S f) st) (fun step => match snd step with
      | None => mret [] | Some x => let! xs := aiter_drain f (fst step) in mret (x :: xs) end) w).
  unfold mbind. rewrite H. reflexivity.
Qed.

Lemma aiter_items_nil_end (f : nat) (w : world) :
  has_more_pages w = (w, Ret (JBool false)) -> aiter_next (S f) (AItems []) w = (w, Ret (ADone, None)).
Proof. intros Hh. cbn [aiter_next]. unfold mbind at 1, mtry. rewrite Hh. reflexivity. Qed.

Lemma aiter_drain_items_end (l : list json) :
  forall f w, has_more_pages w = (w, Ret (JBool false)) -> (length l <= f)%nat ->
  aiter_drain (S f) (AItems l) w = (w, Ret l).
Proof.
  induction l as [|x rest IH]; intros f w Hh Hf.
  - exact (aiter_drain_none f _ _ _ _ (aiter_items_nil_end f w Hh)).
  - destruct f as [|f']; [cbn in Hf; lia|].
    rewrite (aiter_drain_some (S f') (AItems (x :: rest)) (AItems rest) w w x eq_refl).
    unfold mbind. rewrite IH by (auto; cbn in Hf; lia). reflexivity.
Qed.

(** X15: an iteration ([async for]) of an [OffsetPaginator] or a
    [CursorPaginator] whose first page answers [has_more: false] (and
    whose [links], if any, is an object) sends that one GET for page 1,
    yields exactly the items of that page, and ends. *)
Theorem last_page_ends_iteration (fuel : nat) (w : world) (key : string)
  (kvs : list (string * json)) (l : list json)
  (Hk : kind (pag w) = OffsetPaginator key \/ kind (pag w) = CursorPaginator key)
  (Hs : server (calls w) (page_request (set_current_page (pag w) 1)) = inr (JObj kvs))
  (Hitems : obj_find key kvs = Some (JArr l))
  (Hhm : obj_find "has_more" kvs = Some (JBool false))
  (Hl : forall lk, obj_find "links" kvs = Some lk -> exists lkv, lk = JObj lkv)
  (Hf : (length l + 3 <= fuel)%nat) :
  exists w', aiter_drain fuel AStart w = (w', Ret l) /\
    calls w' = calls w ++ [page_request (set_current_page (pag w) 1)].
Proof.
  destruct fuel as [|[|[|f]]]; [lia|lia|lia|].
  destruct (get_page_last (with_page w 1) key kvs l Hk Hs Hitems Hhm Hl) as (w1 & Eg & Hc & Hh).
  exists w1. split; [|exact Hc].
  assert (Ea : aiter_next (S (S (S f))) AStart w = aiter_next (S f) (AItems l) w1).
  { change (aiter_next (S (S (S f))) AStart w) with (aiter_next (S (S f)) AFetch (with_page w 1)).
    exact (aiter_fetch_ok (S f) _ _ _ Eg). }
  destruct l as [|x rest].
  - rewrite (aiter_items_nil_end f w1 Hh) in Ea. exact (aiter_drain_none _ _ _ _ _ Ea).
  - rewrite (aiter_drain_some _ _ (AItems rest) w w1 x Ea).
    unfold mbind. rewrite aiter_drain_items_end by (auto; cbn in Hf; lia). reflexivity.
Qed.

(** ** What an export response leaves in the paginator *)

(** ** The cursor an export traversal sends *)

(** [_update_pagination_state] of a [SearchExportPaginator] on an object
    response whose [links] and [meta] are objects (or absent). *)
Lemma export_update_run (w : world) (kvs lkv mkv : list (string * json))
  (Hk : kind (pag w) = SearchExportPaginator)
  (Hl : default (JObj []) (obj_find "links" kvs) = JObj lkv)
  (Hm : default (JObj []) (obj_find "meta" kvs) = JObj mkv) :
  let ac := default JNull (obj_find "after_cursor" mkv) in
  let hm := default (JBool false) (obj_find "has_more" mkv) in
  exists p', update_pagination_state (JObj kvs) w =
      (mkWorld p' (calls w), Ret (if is_none hm then JBool (negb (is_none ac)) else hm)) /\
    next_cursor p' = ac /\ has_started p' = true /\ frame p' = frame (pag w).
Proof.
  cbv zeta. unfold update_pagination_state. rewrite mbind_get_pag, Hk.
  unfold mbind, lift, modify_pag. rewrite py_get_obj, Hl, py_get_obj, Hm, !py_get_obj.
  cbn [fst snd pag calls].
  eexists. split.
  - unfold has_more_pages. rewrite mbind_get_pag. cbn [pag kind set_has_started set_pagination_info
      set_next_cursor set_next_url has_started pagination_info next_cursor pi_has_more].
    rewrite Hk. cbn [negb].
    destruct (is_none (default (JBool false) (obj_find "has_more" mkv))); reflexivity.
  - auto.
Qed.

Lemma frame_inv (p q : paginator) :
  frame p = frame q ->
  kind p = kind q /\ path p = path q /\ params p = params q /\
  per_page p = per_page q /\ query p = query q /\ filter_type p = filter_type q.
Proof. unfold frame. intros H. injection H. intros. repeat split; assumption. Qed.

(** [m] sends nothing. *)
Definition keeps_calls {A} (m : M A) : Prop := forall w, calls (fst (m w)) = calls w.

Lemma keeps_calls_pure {A} (m : M A) : (forall w, fst (m w) = w) -> keeps_calls m.
Proof. intros H w. rewrite H. reflexivity. Qed.

Lemma keeps_calls_bind {A B} (m : M A) (k : A -> M B) :
  keeps_calls m -> (forall a, keeps_calls (k a)) -> keeps_calls (mbind m k).
Proof.
  intros Hm Hk w. unfold mbind. specialize (Hm w).
  destruct (m w) as [w1 [a|e|]]; cbn in *; [rewrite Hk|..]; exact Hm.
Qed.

Lemma keeps_calls_modify (f : paginator -> paginator) : keeps_calls (modify_pag f).
Proof. intros w. reflexivity. Qed.

Lemma keeps_calls_get_pag {A} (F : paginator -> M A) :
  (forall p, keeps_calls (F p)) -> keeps_calls (mbind get_pag F).
Proof. intros H w. rewrite mbind_get_pag. apply H. Qed.

Ltac kept :=
  repeat first
    [ apply keeps_calls_pure; intros; reflexivity
    | apply keeps_calls_pure; exact has_more_pages_world
    | apply keeps_calls_modify
    | apply keeps_calls_get_pag; intro
    | apply keeps_calls_bind; [|intro]
    | match goal with |- keeps_calls (if ?b then _ else _) => destruct b end
    | match goal with |- keeps_calls (match ?x with _ => _ end) => destruct x end ].

Lemma keeps_calls_update_extract (response : json) :
  keeps_calls (update_pagination_state response ;; extract_items response).
Proof. apply keeps_calls_bind; [unfold update_pagination_state|intros _; unfold extract_items]; kept. Qed.

Section ExportWire.

(** The traversal starts after the Transport log [base], and every
    paginator state of it has the frame [fr], that of an export paginator. *)
Variable base : list request.
Variable fr : pkind * string * dict * Z * string * string.
Hypothesis Hfr : forall p, frame p = fr -> kind p = SearchExportPaginator.

(** The cursor state of [p] is the one the last answer of the log left:
    when the last GET after [base] was answered with an object whose
    [links] and [meta] are objects (or absent), [p] has started and its
    saved cursor is that answer's [meta.after_cursor]. *)
Definition cursor_follows (p : paginator) (log : list request) : Prop :=
  forall a r kvs lkv mkv,
    log = base ++ a ++ [r] ->
    server (base ++ a) r = inr (JObj kvs) ->
    default (JObj []) (obj_find "links" kvs) = JObj lkv ->
    default (JObj []) (obj_find "meta" kvs) = JObj mkv ->
    next_cursor p = default JNull (obj_find "after_cursor" mkv) /\ has_started p = true.

Definition export_inv (w : world) : Prop :=
  frame (pag w) = fr /\ cursor_follows (pag w) (calls w).

(** Each GET of [new], sent after [log], is the page request of a state
    with frame [fr] whose cursor is the one the log so far left. *)
Fixpoint sent_from (log new : list request) : Prop :=
  match new with
  | [] => True
  | r :: rest =>
      (exists p, r = page_request p /\ frame p = fr /\ cursor_follows p log) /\
      sent_from (log ++ [r]) rest
  end.

Definition wire_ok {A} (m : M A) : Prop :=
  forall w, export_inv w ->
    export_inv (fst (m w)) /\
    exists new, calls (fst (m w)) = calls w ++ new /\ sent_from (calls w) new.

Lemma sent_from_app (n1 : list request) :
  forall log n2, sent_from log (n1 ++ n2) <-> sent_from log n1 /\ sent_from (log ++ n1) n2.
Proof.
  induction n1 as [|r rest IH]; intros log n2; cbn [app sent_from].
  - rewrite app_nil_r. tauto.
  - rewrite IH, <- app_assoc. cbn [app]. tauto.
Qed.

Lemma sent_from_at (log new a b : list request) (r : request) :
  sent_from log new -> new = a ++ r :: b ->
  exists p, r = page_request p /\ frame p = fr /\ cursor_follows p (log ++ a).
Proof.
  intros H ->. apply sent_from_app in H as [_ H]. cbn [sent_from] in H. exact (proj1 H).
Qed.

Lemma wire_ok_pure {A} (m : M A) : (forall w, fst (m w) = w) -> wire_ok m.
Proof.
  intros H w Hw. rewrite H. split; [exact Hw|].
  exists []. rewrite app_nil_r. split; [reflexivity|exact I].
Qed.

Lemma wire_ok_bind {A B} (m : M A) (k : A -> M B) :
  wire_ok m -> (forall a, wire_ok (k a)) -> wire_ok (mbind m k).
Proof.
  intros Hm Hk w Hw. unfold mbind. destruct (Hm w Hw) as [Hw1 (n1 & Hc1 & Hs1)].
  destruct (m w) as [w1 [a|e|]]; cbn [fst snd] in *;
    [|split; [exact Hw1|exists n1; auto]..].
  destruct (Hk a w1 Hw1) as [Hw2 (n2 & Hc2 & Hs2)]. split; [exact Hw2|].
  exists (n1 ++ n2). split; [rewrite Hc2, Hc1, app_assoc; reflexivity|].
  apply sent_from_app. rewrite <- Hc1. auto.
Qed.

Lemma wire_ok_bind_post {A B} (m : M A) (k : A -> M B) (Q : A -> Prop) :
  wire_ok m -> (forall w w' a, m w = (w', Ret a) -> Q a) ->
  (forall a, Q a -> wire_ok (k a)) -> wire_ok (mbind m k).
Proof.
  intros Hm HQ Hk w Hw. unfold mbind. destruct (Hm w Hw) as [Hw1 (n1 & Hc1 & Hs1)].
  destruct (m w) as [w1 [a|e|]] eqn:E; cbn [fst snd] in *;
    [|split; [exact Hw1|exists n1; auto]..].
  destruct (Hk a (HQ _ _ _ E) w1 Hw1) as [Hw2 (n2 & Hc2 & Hs2)]. split; [exact Hw2|].
  exists (n1 ++ n2). split; [rewrite Hc2, Hc1, app_assoc; reflexivity|].
  apply sent_from_app. rewrite <- Hc1. auto.
Qed.

Lemma wire_ok_mtry {A} (m : M A) : wire_ok m -> wire_ok (mtry m).
Proof.
  intros Hm w Hw. unfold mtry. destruct (Hm w Hw) as [H1 H2].
  destruct (m w) as [w1 [a|e|]]; cbn [fst] in *; auto.
Qed.

Lemma wire_ok_modify (f : paginator -> paginator) :
  (forall p, frame (f p) = frame p /\ next_cursor (f p) = next_cursor p /\
             has_started (f p) = has_started p) ->
  wire_ok (modify_pag f).
Proof.
  intros Hf w [Hfw Hcw]. destruct (Hf (pag w)) as (E1 & E2 & E3).
  change (fst (modify_pag f w)) with (mkWorld (f (pag w)) (calls w)). cbn [pag calls].
  split; [split; [cbn [pag]; rewrite E1; exact Hfw|]|exists []; rewrite app_nil_r; split; [reflexivity|exact I]].
  intros a r kvs lkv mkv Heq Hs Hl Hm. cbn [pag]. rewrite E2, E3. exact (Hcw a r kvs lkv mkv Heq Hs Hl Hm).
Qed.

Lemma wire_ok_get_pag {A} (F : paginator -> M A) :
  (forall p, wire_ok (F p)) -> wire_ok (mbind get_pag F).
Proof. intros H w. rewrite mbind_get_pag. apply H. Qed.

Ltac wired :=
  repeat first
    [ apply wire_ok_pure; intros; reflexivity
    | apply wire_ok_pure; exact has_more_pages_world
    | apply wire_ok_mtry
    | apply wire_ok_modify; intros []; repeat split
    | apply wire_ok_get_pag; intro
    | apply wire_ok_bind; [|intro]
    | match goal with |- wire_ok (if ?b then _ else _) => destruct b end
    | match goal with |- wire_ok (match ?x with _ => _ end) => destruct x end ].

(** One page of an export traversal: the GET built from the current state,
    after which the state holds the cursor of its answer. *)
Lemma wire_ok_get_page : wire_ok (get_page None).
Proof.
  unfold get_page. apply wire_ok_bind; [apply wire_ok_pure; reflexivity|intros _].
  intros w [Hf Hc].
  assert (Hk : kind (pag w) = SearchExportPaginator) by (apply Hfr; exact Hf).
  rewrite mbind_get_pag.
  unfold fetch_page, http_get, get_pag, mbind at 1 2 4 5.
  cbn -[update_pagination_state extract_items mbind].
  change (Get (path (pag w)) (Some (build_page_params (pag w)))) with (page_request (pag w)).
  set (r := page_request (pag w)).
  assert (Hsent : sent_from (calls w) [r]) by (split; [exists (pag w); auto|exact I]).
  assert (Hlast : forall a r', calls w ++ [r] = base ++ a ++ [r'] -> calls w = base ++ a /\ r' = r).
  { intros a r' Heq. rewrite app_assoc in Heq. apply app_inj_tail in Heq as [E1 E2]. auto. }
  destruct (server (calls w) r) as [e|body] eqn:Es; cbn -[mbind].
  - split; [split; [exact Hf|]|exists [r]; auto].
    intros a r' kvs lkv mkv Heq Hs. destruct (Hlast a r' Heq) as [E1 ->].
    rewrite <- E1, Es in Hs. discriminate.
  - set (w1 := mkWorld (pag w) (calls w ++ [r])).
    pose proof (keeps_calls_update_extract body w1) as Hcalls.
    destruct (frame_ok_bind _ _ (frame_ok_update body) (fun _ => frame_ok_extract body) w1)
      as [Hfr1 _].
    split; [split|exists [r]; split; [exact Hcalls|exact Hsent]].
    + rewrite Hfr1. exact Hf.
    + intros a r' kvs lkv mkv Heq Hs Hl Hm. rewrite Hcalls in Heq.
      destruct (Hlast a r' Heq) as [E1 ->]. rewrite <- E1, Es in Hs. injection Hs as ->.
      destruct (export_update_run w1 kvs lkv mkv Hk Hl Hm) as (p' & Eu & Hn & Hs & Hf').
      assert (Hk' : kind p' = SearchExportPaginator)
        by (rewrite (proj1 (frame_inv _ _ Hf')); exact Hk).
      assert (E : fst ((update_pagination_state (JObj kvs) ;; extract_items (JObj kvs)) w1) =
                  mkWorld p' (calls w1)).
      { unfold mbind at 1. rewrite Eu. cbv beta iota zeta.
        unfold extract_items. rewrite mbind_get_pag. cbn [pag]. rewrite Hk'. reflexivity. }
      rewrite E. auto.
Qed.

Lemma wire_ok_aiter_next (fuel : nat) : forall st, wire_ok (aiter_next fuel st).
Proof.
  induction fuel as [|f IH]; intros st; [apply wire_ok_pure; reflexivity|].
  destruct st as [| |[|x rest]|]; cbn [aiter_next].
  - apply wire_ok_bind; [|intros _; apply IH].
    apply wire_ok_modify. intros []; repeat split.
  - apply wire_ok_bind; [apply wire_ok_mtry, wire_ok_bind; [apply wire_ok_get_page|intros; apply wire_ok_pure; reflexivity]|].
    intros [l|e]; [apply IH|unfold aiter_handler; destruct e; wired].
  - apply wire_ok_bind; [apply wire_ok_mtry, wire_ok_pure; exact has_more_pages_world|].
    intros [b|e]; [|unfold aiter_handler; destruct e; wired].
    destruct (negb (truthy b)); [apply wire_ok_pure; reflexivity|].
    apply wire_ok_bind; [unfold advance_to_next_page; wired|intros _; apply IH].
  - apply wire_ok_pure; reflexivity.
  - apply wire_ok_pure; reflexivity.
Qed.

Lemma wire_ok_aiter_drain (fuel : nat) : forall st, wire_ok (aiter_drain fuel st).
Proof.
  induction fuel as [|f IH]; intros st; [apply wire_ok_pure; reflexivity|].
  cbn [aiter_drain]. apply wire_ok_bind; [apply wire_ok_aiter_next|].
  intros [st' [x|]]; cbn; [|apply wire_ok_pure; reflexivity].
  apply wire_ok_bind; [apply IH|intros; apply wire_ok_pure; reflexivity].
Qed.

Lemma wire_ok_export_next (lim : option Z) (fuel : nat) :
  forall st, ex_started st -> wire_ok (export_tickets_next lim fuel st).
Proof.
  destruct fuel as [|f]; intros st Hst; [apply wire_ok_pure; reflexivity|].
  destruct st as [q ps|inner count|]; [contradiction| |]; cbn [export_tickets_next].
  - apply wire_ok_bind; [apply wire_ok_aiter_next|intros [st1 [item|]]; cbn [snd fst]; wired].
  - apply wire_ok_pure; reflexivity.
Qed.

Lemma wire_ok_export_drain (lim : option Z) (fuel : nat) :
  forall st, ex_started st -> wire_ok (export_tickets_drain lim fuel st).
Proof.
  induction fuel as [|f IH]; intros st Hst; [apply wire_ok_pure; reflexivity|].
  cbn [export_tickets_drain].
  apply (wire_ok_bind_post _ _ (fun step => ex_started (fst step))).
  - apply wire_ok_export_next; exact Hst.
  - intros w w' [st' x] H. exact (proj2 (export_next_frame lim (S f) st Hst) _ _ _ _ H).
  - intros [st' [t|]] Hs; cbn [snd fst] in *; [|apply wire_ok_pure; reflexivity].
    apply wire_ok_bind; [apply IH; exact Hs|intros; apply wire_ok_pure; reflexivity].
Qed.

End ExportWire.

(** A traversal starting on a log has sent nothing yet. *)
Lemma export_inv_start (w : world) :
  kind (pag w) = SearchExportPaginator ->
  export_inv (calls w) (frame (pag w)) w.
Proof.
  intros Hk. split; [reflexivity|]. intros a r kvs lkv mkv Heq.
  apply (f_equal (@length request)) in Heq. rewrite !length_app in Heq. cbn in Heq. lia.
Qed.

Lemma export_page_after (p : paginator) :
  kind p = SearchExportPaginator -> params p = [] -> has_started p = true ->
  dict_get (build_page_params p) "page[after]" =
    if truthy (next_cursor p) then Some (next_cursor p) else None.
Proof.
  intros Hk Hp Hs. unfold build_page_params, get_page_params. rewrite Hk, Hp, Hs.
  destruct (truthy (next_cursor p)); reflexivity.
Qed.

(** A GET of an export traversal started from [w0], sent after the GETs
    [a], carries the frame's query, filter and page size, no [cursor],
    and, when the GET before it was answered with an object, that
    answer's [meta.after_cursor] as [page[after]] if it is truthy and no
    [page[after]] otherwise. *)
Lemma export_sent_params (w0 : world) (a : list request) (r : request) (p : paginator) :
  kind (pag w0) = SearchExportPaginator -> params (pag w0) = [] ->
  r = page_request p -> frame p = frame (pag w0) ->
  cursor_follows (calls w0) p (calls w0 ++ a) ->
  exists ps, r = Get (path (pag w0)) (Some ps) /\
    dict_get ps "query" = Some (JStr (query (pag w0))) /\
    dict_get ps "filter[type]" = Some (JStr (filter_type (pag w0))) /\
    dict_get ps "page[size]" = Some (JNum (per_page (pag w0))) /\
    dict_get ps "cursor" = None /\
    (forall a' r' kvs lkv mkv, a = a' ++ [r'] ->
       server (calls w0 ++ a') r' = inr (JObj kvs) ->
       default (JObj []) (obj_find "links" kvs) = JObj lkv ->
       default (JObj []) (obj_find "meta" kvs) = JObj mkv ->
       dict_get ps "page[after]" =
         let ac := default JNull (obj_find "after_cursor" mkv) in
         if truthy ac then Some ac else None).
Proof.
  intros Hk Hp -> Hf Hc.
  destruct (frame_inv _ _ Hf) as (Ek & Epath & Ep & Epp & Eq & Eft).
  rewrite Hk in Ek. rewrite Hp in Ep.
  destruct (export_page_params p Ek Ep) as (E1 & E2 & E3 & E4 & _).
  exists (build_page_params p). unfold page_request. rewrite Epath.
  rewrite <- Eq, <- Eft, <- Epp. split; [reflexivity|]. repeat (split; [assumption|]).
  intros a' r' kvs lkv mkv -> Hs Hl Hm.
  destruct (Hc a' r' kvs lkv mkv eq_refl Hs Hl Hm) as [Hn Hst].
  rewrite (export_page_after p Ek Ep Hst), Hn. reflexivity.
Qed.


(** ** C5 *)

(** C5: in every traversal of a [SearchExportPaginator] built without
    extra parameters, every GET goes to the paginator's path with its
    [query], [filter[type]] and [page[size]] and never a [cursor]
    parameter; a GET that follows one answered with an object whose
    [links] and [meta] are objects (or absent) sends that answer's
    [meta.after_cursor] as [page[after]] when it is truthy, and no
    [page[after]] otherwise.  The cursor saved from a response is its
    [meta.after_cursor] (a top-level [next_cursor] is not read). *)
Theorem export_paginator_wire (fuel : nat) (st : aiter_state) (w : world)
  (Hk : kind (pag w) = SearchExportPaginator) (Hp : params (pag w) = []) :
  (exists new, calls (fst (aiter_drain fuel st w)) = calls w ++ new /\
     forall a r b, new = a ++ r :: b ->
       exists ps, r = Get (path (pag w)) (Some ps) /\
         dict_get ps "query" = Some (JStr (query (pag w))) /\
         dict_get ps "filter[type]" = Some (JStr (filter_type (pag w))) /\
         dict_get ps "page[size]" = Some (JNum (per_page (pag w))) /\
         dict_get ps "cursor" = None /\
         (forall a' r' kvs lkv mkv, a = a' ++ [r'] ->
            server (calls w ++ a') r' = inr (JObj kvs) ->
            default (JObj []) (obj_find "links" kvs) = JObj lkv ->
            default (JObj []) (obj_find "meta" kvs) = JObj mkv ->
            dict_get ps "page[after]" =
              let ac := default JNull (obj_find "after_cursor" mkv) in
              if truthy ac then Some ac else None)) /\
  (forall response links meta,
     py_get response "links" (JObj []) = Ret (JObj links) ->
     py_get response "meta" (JObj []) = Ret (JObj meta) ->
     next_cursor (pag (fst (update_pagination_state response w))) =
       match obj_find "after_cursor" meta with Some v => v | None => JNull end).
Proof.
  split.
  - assert (Hfr : forall p, frame p = frame (pag w) -> kind p = SearchExportPaginator)
      by (intros p Hf; rewrite (proj1 (frame_inv _ _ Hf)); exact Hk).
    destruct (wire_ok_aiter_drain (calls w) (frame (pag w)) Hfr fuel st w (export_inv_start w Hk))
      as [_ (new & Hc & Hs)].
    exists new. split; [exact Hc|]. intros a r b Hn.
    destruct (sent_from_at _ _ _ _ _ _ _ Hs Hn) as (p & Er & Hf & Hcf).
    exact (export_sent_params w a r p Hk Hp Er Hf Hcf).
  - intros response links meta Hl Hm.
    unfold update_pagination_state. rewrite mbind_get_pag. rewrite Hk.
    unfold mbind at 1, lift at 1. rewrite Hl.
    unfold mbind at 1, lift at 1. rewrite Hm.
    cbn -[has_more_pages].
    destruct (obj_find "next" links), (obj_find "after_cursor" meta), (obj_find "has_more" meta);
      cbn -[has_more_pages]; rewrite has_more_pages_world; reflexivity.
Qed.

(** X14: every GET of [SearchClient.export_tickets] with a raw query
    string goes to [search/export.json] with the query ([*] for an empty
    query), [filter[type]=ticket] and the page size, never a [cursor]
    parameter; a GET that follows one answered with an object whose
    [links] and [meta] are objects (or absent) sends that answer's
    [meta.after_cursor] as [page[after]] when it is truthy, and no
    [page[after]] otherwise. *)
Theorem export_tickets_requests (lim : option Z) (fuel : nat) (q : string) (ps : Z) (w : world) :
  exists new,
    calls (fst (export_tickets_drain lim fuel (ExStart q ps) w)) = calls w ++ new /\
    forall a r b, new = a ++ r :: b ->
      exists prm, r = Get "search/export.json" (Some prm) /\
        dict_get prm "query" = Some (JStr (if String.eqb q "" then "*" else q)) /\
        dict_get prm "filter[type]" = Some (JStr "ticket") /\
        dict_get prm "page[size]" = Some (JNum ps) /\
        dict_get prm "cursor" = None /\
        (forall a' r' kvs lkv mkv, a = a' ++ [r'] ->
           server (calls w ++ a') r' = inr (JObj kvs) ->
           default (JObj []) (obj_find "links" kvs) = JObj lkv ->
           default (JObj []) (obj_find "meta" kvs) = JObj mkv ->
           dict_get prm "page[after]" =
             let ac := default JNull (obj_find "after_cursor" mkv) in
             if truthy ac then Some ac else None).
Proof.
  pose (p0 := new_search_export (if String.eqb q "" then "*" else q) "ticket" ps).
  destruct fuel as [|f].
  { exists []. split; [rewrite app_nil_r; reflexivity|]. intros a r b Hn; destruct a; discriminate. }
  change (export_tickets_drain lim (S f) (ExStart q ps) w) with
    (mbind (export_tickets_next lim f (ExRun AStart 0))
       (fun step => match snd step with
                    | None => mret []
                    | Some t => let! ts := export_tickets_drain lim f (fst step) in mret (t :: ts)
                    end) (mkWorld p0 (calls w))).
  set (w0 := mkWorld p0 (calls w)).
  assert (Hk : kind (pag w0) = SearchExportPaginator) by reflexivity.
  assert (Hp : params (pag w0) = []) by reflexivity.
  assert (Hfr : forall p, frame p = frame (pag w0) -> kind p = SearchExportPaginator)
    by (intros p Hf; rewrite (proj1 (frame_inv _ _ Hf)); exact Hk).
  assert (Hw : wire_ok (calls w0) (frame (pag w0))
     (mbind (export_tickets_next lim f (ExRun AStart 0))
       (fun step => match snd step with
                    | None => mret []
                    | Some t => let! ts := export_tickets_drain lim f (fst step) in mret (t :: ts)
                    end))).
  { apply (wire_ok_bind_post _ _ _ _ (fun step => ex_started (fst step))).
    - exact (wire_ok_export_next _ _ Hfr lim f (ExRun AStart 0) I).
    - intros w1 w' [st' x] H. exact (proj2 (export_next_frame lim f (ExRun AStart 0) I) _ _ _ _ H).
    - intros [st' [t|]] Hs; cbn [snd fst] in *; [|apply wire_ok_pure; reflexivity].
      apply wire_ok_bind; [apply (wire_ok_export_drain _ _ Hfr); exact Hs|].
      intros; apply wire_ok_pure; reflexivity. }
  destruct (Hw w0 (export_inv_start w0 Hk)) as [_ (new & Hc & Hs)].
  exists new. split; [exact Hc|]. intros a r b Hn.
  destruct (sent_from_at _ _ _ _ _ _ _ Hs Hn) as (p & Er & Hf & Hcf).
  exact (export_sent_params w0 a r p Hk Hp Er Hf Hcf).
Qed.


(** X17: for a [SearchExportPaginator], a response whose [links] and
    [meta] are objects (or absent) saves [meta.after_cursor] as the
    cursor, marks the paginator started, keeps its frame and sends
    nothing; it reports [meta.has_more], which defaults to [false] when
    [meta] has no [has_more] (even with a cursor), and falls back to
    "a cursor was saved" only when [has_more] is [null]. *)
Theorem export_update_state (w : world) (kvs lkv mkv : list (string * json))
  (Hk : kind (pag w) = SearchExportPaginator)
  (Hl : default (JObj []) (obj_find "links" kvs) = JObj lkv)
  (Hm : default (JObj []) (obj_find "meta" kvs) = JObj mkv) :
  let ac := default JNull (obj_find "after_cursor" mkv) in
  let hm := default (JBool false) (obj_find "has_more" mkv) in
  exists p', update_pagination_state (JObj kvs) w =
      (mkWorld p' (calls w), Ret (if is_none hm then JBool (negb (is_none ac)) else hm)) /\
    next_cursor p' = ac /\ has_started p' = true /\ frame p' = frame (pag w).
Proof. exact (export_update_run w kvs lkv mkv Hk Hl Hm). Qed.


End Client.

(** * Evaluations at concrete inputs *)

Lemma aiter_http_error_semantics_witness :
  srv_http_error 422 [] (page_request (create_search_paginator "status:open" 100))
    = inl (ZendeskHTTPException 422 "HTTP error") /\
  aiter_next (srv_http_error 422) 1 AFetch (mkWorld (create_search_paginator "status:open" 100) [])
    = (mkWorld (create_search_paginator "status:open" 100)
               [page_request (create_search_paginator "status:open" 100)],
       Ret (ADone, None)).
Proof.
  split; [reflexivity|].
  exact (proj1 (aiter_http_error_semantics (srv_http_error 422) 0
                  (mkWorld (create_search_paginator "status:open" 100) []) 422 "HTTP error"
                  eq_refl)).
Defined.

Lemma offset_fallback_ignores_page_witness :
  has_more_pages
    (mkWorld (set_pagination_info (users_paginator 100) (Some info_without_signal)) [])
  = (mkWorld (set_pagination_info (users_paginator 100) (Some info_without_signal)) [],
     Ret (JBool true)).
Proof.
  exact (offset_fallback_ignores_page
           (mkWorld (set_pagination_info (users_paginator 100) (Some info_without_signal)) [])
           "users" info_without_signal eq_refl eq_refl eq_refl eq_refl).
Defined.

(** On a users paginator whose every response is an empty page without
    [has_more] or [count], the iteration never ends: each loop fetches the
    next page. *)
Lemma empty_pages_loop (fuel : nat) :
  forall p cs,
    kind p = OffsetPaginator "users" ->
    snd (aiter_next srv_empty_users fuel AFetch (mkWorld p cs)) = Stuck /\
    (pagination_info p = Some info_without_signal ->
     snd (aiter_next srv_empty_users fuel (AItems []) (mkWorld p cs)) = Stuck).
Proof.
  induction fuel as [|f IH]; intros p cs Hk; [split; reflexivity|].
  split.
  - cbn [aiter_next]. unfold mbind at 1, mtry.
    unfold get_page, fetch_page, update_pagination_state, extract_items, has_more_pages,
      get_pag, http_get, modify_pag, mbind, mret, lift.
    do 3 (cbn; rewrite ?Hk).
    apply (IH (set_pagination_info p (Some info_without_signal))); [exact Hk|reflexivity].
  - intros Hi. cbn [aiter_next]. unfold mbind at 1, mtry.
    unfold has_more_pages, get_pag, mbind, mret. cbn. rewrite Hk, Hi. cbn.
    unfold advance_to_next_page, get_pag, modify_pag, mbind, mret.
    do 2 (cbn; rewrite ?Hk).
    apply IH. exact Hk.
Qed.

(** C2 at its failing input: the first [__anext__] of the iteration never
    returns, for any amount of fuel. *)
Theorem offset_fallback_never_stops (fuel : nat) :
  snd (aiter_next srv_empty_users fuel AStart (mkWorld (users_paginator 100) [])) = Stuck.
Proof.
  destruct fuel as [|f]; [reflexivity|].
  cbn [aiter_next]. unfold mbind at 1, modify_pag. cbn.
  apply empty_pages_loop. reflexivity.
Qed.

(** After 21 steps the loop has requested pages 1 to 10, each empty. *)
Lemma offset_fallback_ten_empty_pages :
  map req_params (calls (fst (aiter_next srv_empty_users 21 AStart (mkWorld (users_paginator 100) []))))
  = map (fun n => Some [("page", JNum n); ("per_page", JNum 100)]) [1;2;3;4;5;6;7;8;9;10].
Proof. vm_compute. reflexivity. Qed.

(** C3 at its failing input: the Transport answers the first search page
    with a 404; the enriched stream ends with no item and no exception. *)
Theorem search_enriched_swallows_404 :
  search_enriched_drain (srv_http_error 404) elements (fun n => seq 0 n) None 50
    (SeStart "status:open" 100) (mkWorld no_paginator [])
  = (mkWorld (tickets_paginator "status:open" 100)
             [page_request (tickets_paginator "status:open" 100)],
     Ret []).
Proof. vm_compute. reflexivity. Qed.

Lemma paginate_enriched_swallows_errors_witness :
  get_page (srv_http_error 404) None (mkWorld (tickets_paginator "status:open" 100) [])
    = (mkWorld (tickets_paginator "status:open" 100)
               [page_request (tickets_paginator "status:open" 100)],
       Exc (ZendeskHTTPException 404 "HTTP error")) /\
  paginate_enriched_next (srv_http_error 404) 1 PgFetch
    (mkWorld (tickets_paginator "status:open" 100) [])
  = (mkWorld (tickets_paginator "status:open" 100)
             [page_request (tickets_paginator "status:open" 100)],
     Ret (PgDone, None)).
Proof.
  split; [vm_compute; reflexivity|].
  apply (paginate_enriched_swallows_errors (srv_http_error 404) 0 _ _
           (ZendeskHTTPException 404 "HTTP error")).
  vm_compute. reflexivity.
Defined.

(** C6 at its failing input: [SearchClient.tickets] with [limit=0] over one
    page of ten tickets yields all ten. *)
Theorem search_tickets_limit_zero_yields_all :
  let r := tickets_drain (srv_ticket_page 10) (Some 0) 50 (TkStart "status:open" 100)
             (mkWorld no_paginator []) in
  snd r = Ret (map ticket_of_result [1;2;3;4;5;6;7;8;9;10]) /\ length (calls (fst r)) = 1%nat.
Proof. vm_compute. split; reflexivity. Qed.

(** With [limit=5] over pages of ten tickets, five tickets are yielded and
    one page is fetched. *)
Lemma search_tickets_limit_five_one_fetch :
  let r := tickets_drain (srv_ticket_page 20) (Some 5) 50 (TkStart "status:open" 10)
             (mkWorld no_paginator []) in
  snd r = Ret (map ticket_of_result [1;2;3;4;5]) /\ length (calls (fst r)) = 1%nat.
Proof. vm_compute. split; reflexivity. Qed.

(** C4 refuted: [get_page(5)] on a fresh cursor paginator raises nothing;
    it sends the first-page request and returns the page. *)
Lemma cursor_get_page_accepts_page :
  get_page (srv_ticket_page 10) (Some 5) (mkWorld incremental_tickets_paginator [])
  = (mkWorld (set_has_started
                (set_pagination_info (set_current_page incremental_tickets_paginator 5)
                   (Some (mkPaginationInfo JNull JNull (JNum 10) JNull JNull JNull))) true)
             [Get "incremental/tickets.json"
                  (Some [("start_time", JNum 0); ("per_page", JNum 100)])],
     Ret (JArr [])).
Proof. vm_compute. reflexivity. Qed.

Lemma cursor_get_page_ignores_page_witness :
  get_page (srv_ticket_page 10) (Some 5) (mkWorld incremental_tickets_paginator [])
  = (with_page (fst (get_page (srv_ticket_page 10) None (mkWorld incremental_tickets_paginator []))) 5,
     snd (get_page (srv_ticket_page 10) None (mkWorld incremental_tickets_paginator []))) /\
  dict_get (build_page_params (set_current_page (users_paginator 100) 3)) "page" = Some (JNum 3).
Proof.
  split.
  - exact (proj1 (proj1 (cursor_get_page_ignores_page (srv_ticket_page 10)
                           (mkWorld incremental_tickets_paginator []) 5) eq_refl)).
  - exact (proj2 (proj2 (proj2 (cursor_get_page_ignores_page srv_empty_users
                                  (mkWorld (users_paginator 100) []) 3) "users" eq_refl))).
Defined.

Lemma export_paginator_wire_witness :
  kind export_tickets_paginator = SearchExportPaginator /\
  params export_tickets_paginator = [] /\
  exists new, calls (fst (aiter_drain srv_export 10 AStart (mkWorld export_tickets_paginator [])))
              = [] ++ new /\
    forall a r b, new = a ++ r :: b ->
      exists ps, r = Get (path export_tickets_paginator) (Some ps) /\
        dict_get ps "query" = Some (JStr (query export_tickets_paginator)) /\
        dict_get ps "filter[type]" = Some (JStr (filter_type export_tickets_paginator)) /\
        dict_get ps "page[size]" = Some (JNum (per_page export_tickets_paginator)) /\
        dict_get ps "cursor" = None /\
        (forall a' r' kvs lkv mkv, a = a' ++ [r'] ->
           srv_export ([] ++ a') r' = inr (JObj kvs) ->
           default (JObj []) (obj_find "links" kvs) = JObj lkv ->
           default (JObj []) (obj_find "meta" kvs) = JObj mkv ->
           dict_get ps "page[after]" =
             let ac := default JNull (obj_find "after_cursor" mkv) in
             if truthy ac then Some ac else None).
Proof.
  split; [reflexivity|]. split; [reflexivity|].
  exact (proj1 (export_paginator_wire srv_export 10 AStart (mkWorld export_tickets_paginator [])
                  eq_refl eq_refl)).
Defined.

(** The traversal of [export_tickets_paginator] on [srv_export]: the second
    GET sends the [meta.after_cursor] "c1" of the first answer. *)
Lemma export_second_request_after :
  map req_params (calls (fst (aiter_drain srv_export 10 AStart (mkWorld export_tickets_paginator [])))) =
    [Some [("query", JStr "status:open"); ("filter[type]", JStr "ticket"); ("page[size]", JNum 100)];
     Some [("query", JStr "status:open"); ("filter[type]", JStr "ticket"); ("page[size]", JNum 100);
           ("page[after]", JStr "c1")]].
Proof. vm_compute. reflexivity. Qed.

(** A traversal of the incremental ticket paginator abandoned after its
    first item: one GET was sent and the cursor "c1" is saved. *)
Lemma abandoned_cursor_traversal :
  aiter_next srv_cursor 3 AStart (mkWorld incremental_tickets_paginator [])
  = (abandoned_cursor_world, Ret (AItems [ticket_result 2], Some (ticket_result 1))).
Proof. vm_compute. reflexivity. Qed.

Lemma cursor_restart_resends_cursor_witness :
  (exists rest, calls (fst (aiter_next srv_cursor 4 AStart abandoned_cursor_world)) =
                calls abandoned_cursor_world ++ page_request (pag abandoned_cursor_world) :: rest) /\
  dict_get (build_page_params (set_current_page (pag abandoned_cursor_world) 1)) "cursor"
    = Some (next_cursor (pag abandoned_cursor_world)).
Proof.
  destruct (cursor_restart_resends_cursor srv_cursor 2 abandoned_cursor_world)
    as (_ & [rest Hc] & Hb & Hcur).
  split.
  - exists rest. rewrite Hc, (Hb eq_refl). reflexivity.
  - apply (Hcur "tickets"); reflexivity.
Defined.

(** Restarting that traversal: the first GET sends [cursor=c1], so the
    new traversal yields the third ticket, not the first. *)
Lemma cursor_restart_skips_first_page :
  map req_params (calls (fst (aiter_next srv_cursor 4 AStart abandoned_cursor_world))) =
    [Some [("start_time", JNum 0); ("per_page", JNum 100)];
     Some [("start_time", JNum 0); ("per_page", JNum 100); ("cursor", JStr "c1")]] /\
  snd (aiter_next srv_cursor 4 AStart abandoned_cursor_world)
    = Ret (AItems [], Some (ticket_result 3)).
Proof. vm_compute. split; reflexivity. Qed.

Lemma get_enriched_two_calls_witness :
  exists e, snd (get_enriched srv_enrich 7 (mkWorld no_paginator [])) = Ret e /\
   exists r1 r2 i tu cu,
     calls (fst (get_enriched srv_enrich 7 (mkWorld no_paginator [])))
       = calls (mkWorld no_paginator []) ++ [ticket_request 7; comments_request i] /\
     srv_enrich (calls (mkWorld no_paginator [])) (ticket_request 7) = inr r1 /\
     srv_enrich (calls (mkWorld no_paginator []) ++ [ticket_request 7]) (comments_request i) = inr r2 /\
     id (ticket e) = Some i /\
     extract_users_from_response r1 = Ret tu /\
     extract_users_from_response r2 = Ret cu /\
     users e = cu ∪ tu /\
     (forall k, users e !! k = match cu !! k with Some u => Some u | None => tu !! k end).
Proof.
  eexists. split; [vm_compute; reflexivity|].
  apply (proj2 (get_enriched_two_calls srv_enrich 7 (mkWorld no_paginator []))).
  vm_compute. reflexivity.
Defined.

(** [get_enriched(7)] on [srv_enrich]: user 1 is the comments' copy,
    user 2 the ticket's. *)
Lemma get_enriched_comment_user_wins :
  match snd (get_enriched srv_enrich 7 (mkWorld no_paginator [])) with
  | Ret e => users e !! 1 = Some (mkUser (Some 1) (user_json 1 "fresh")) /\
             users e !! 2 = Some (mkUser (Some 2) (user_json 2 "agent"))
  | _ => False
  end.
Proof. vm_compute. split; reflexivity. Qed.

(** C8 refuted: a [search_enriched] batch of ten tickets that reference no
    user is enriched with no user-resolve GET at all: one search GET and
    ten comments GETs. *)
Lemma search_enriched_no_user_resolve :
  map req_path (calls (fst (search_enriched_drain (srv_ticket_page 10) elements
                              (fun n => seq 0 n) None 50 (SeStart "status:open" 100)
                              (mkWorld no_paginator []))))
  = ["search.json"; "tickets/1/comments.json"; "tickets/2/comments.json";
     "tickets/3/comments.json"; "tickets/4/comments.json"; "tickets/5/comments.json";
     "tickets/6/comments.json"; "tickets/7/comments.json"; "tickets/8/comments.json";
     "tickets/9/comments.json"; "tickets/10/comments.json"]%string /\
  match snd (search_enriched_drain (srv_ticket_page 10) elements
               (fun n => seq 0 n) None 50 (SeStart "status:open" 100)
               (mkWorld no_paginator [])) with
  | Ret l => length l = 10%nat
  | _ => False
  end.
Proof. vm_compute. split; reflexivity. Qed.

Lemma batch_user_resolve_witness :
  exists ids,
    calls (fst (fetch_users_batch srv_empty_users elements
                  (collect_user_ids_from_tickets elements [many_followers_ticket])
                  (mkWorld no_paginator [])))
      = [show_many_request ids] /\
    NoDup ids /\ length ids = 100%nat.
Proof.
  destruct (proj2 (batch_user_resolve srv_empty_users elements [many_followers_ticket]
                     (mkWorld no_paginator []) (fun s => Permutation_refl _)))
    as (ids & Hc & Hnd & Hl & _).
  { intros H. apply (f_equal size) in H. vm_compute in H. discriminate. }
  exists ids. split; [exact Hc|]. split; [exact Hnd|]. rewrite Hl. vm_compute. reflexivity.
Defined.

Lemma enrich_many_input_order_witness :
  exists l,
    snd (build_enriched_tickets srv_comments reverse_completion three_tickets ∅
           (mkWorld no_paginator [])) = Ret l /\
    map ticket l = List.filter has_id three_tickets /\
    forall i e, l !! i = Some e ->
      exists t cs cu w1 w2,
        List.filter has_id three_tickets !! i = Some t /\
        e = mkEnrichedTicket t cs (cu ∪ scoped_users t ∅) /\
        fetch_comments_with_users srv_comments (default 0 (id t)) w1 = (w2, Ret (cs, cu)).
Proof.
  eexists. split; [vm_compute; reflexivity|].
  apply (enrich_many_input_order srv_comments reverse_completion three_tickets ∅
           (mkWorld no_paginator [])).
  vm_compute. reflexivity.
Defined.

(** The comment fetches of [three_tickets] complete in the order 3, 2, 1;
    the records still come in input order, each with its own comments. *)
Lemma enrich_many_reverse_completion :
  map req_path (calls (fst (build_enriched_tickets srv_comments reverse_completion three_tickets ∅
                              (mkWorld no_paginator []))))
    = ["tickets/3/comments.json"; "tickets/2/comments.json"; "tickets/1/comments.json"]%string /\
  match snd (build_enriched_tickets srv_comments reverse_completion three_tickets ∅
               (mkWorld no_paginator [])) with
  | Ret l => map (fun e => (id (ticket e), map comment_data (comments e))) l =
               map (fun n => (Some n, [JObj [("author_id", JNum 5);
                      ("body", JStr ("tickets/" ++ pretty n ++ "/comments.json"))]]))
                   [1; 2; 3]
  | _ => False
  end.
Proof. vm_compute. split; reflexivity. Qed.

(** * Evaluations of the further properties at concrete inputs *)

Lemma enriched_users_scoped_witness :
  exists l,
    snd (build_enriched_tickets srv_comments reverse_completion three_tickets ∅
           (mkWorld no_paginator [])) = Ret l /\
    forall i e, l !! i = Some e ->
      exists t cs cu w1 w2,
        List.filter has_id three_tickets !! i = Some t /\
        fetch_comments_with_users srv_comments (default 0 (id t)) w1 = (w2, Ret (cs, cu)) /\
        (forall k, users e !! k =
           match cu !! k with
           | Some u => Some u
           | None => if bool_decide (k ∈ ticket_user_ids t) then (∅ : gmap Z User) !! k else None
           end) /\
        (forall k, k ∈ ticket_user_ids t <->
           (k <> 0 /\ (requester_id t = Some k \/ assignee_id t = Some k \/ submitter_id t = Some k)) \/
           (exists l, collaborator_ids t = Some l /\ k ∈ l) \/
           (exists l, follower_ids t = Some l /\ k ∈ l)).
Proof.
  eexists. split; [vm_compute; reflexivity|].
  apply (enriched_users_scoped srv_comments reverse_completion three_tickets ∅
           (mkWorld no_paginator [])).
  vm_compute. reflexivity.
Defined.

Lemma offset_get_page_request_witness :
  exists ps rest,
    calls (fst (get_page srv_empty_users (Some 3) (mkWorld (users_paginator 100) [])))
      = [] ++ Get "users.json" (Some ps) :: rest /\
    dict_get ps "page" = Some (JNum 3) /\ dict_get ps "per_page" = Some (JNum 100).
Proof.
  destruct (offset_get_page_request srv_empty_users (mkWorld (users_paginator 100) []) "users" 3
              eq_refl) as (ps & rest & Hc & Hps).
  exists ps, rest. split; [exact Hc|]. rewrite !Hps. split; reflexivity.
Defined.

Lemma cursor_get_page_request_witness :
  exists ps rest,
    calls (fst (get_page (srv_ticket_page 10) None (mkWorld incremental_tickets_paginator [])))
      = [] ++ Get "incremental/tickets.json" (Some ps) :: rest /\
    dict_get ps "start_time" = Some (JNum 0) /\ dict_get ps "per_page" = Some (JNum 100) /\
    dict_get ps "cursor" = None.
Proof.
  destruct (cursor_get_page_request (srv_ticket_page 10) (mkWorld incremental_tickets_paginator [])
              "tickets" eq_refl) as (ps & rest & Hc & Hps).
  exists ps, rest. split; [exact Hc|]. rewrite !Hps. repeat split; reflexivity.
Defined.

Lemma offset_has_more_from_count_witness :
  has_more_pages
    (mkWorld (set_pagination_info (users_paginator 100)
                (Some (mkPaginationInfo JNull JNull (JNum 250) JNull JNull JNull))) [])
  = (mkWorld (set_pagination_info (users_paginator 100)
                (Some (mkPaginationInfo JNull JNull (JNum 250) JNull JNull JNull))) [],
     Ret (JBool true)).
Proof.
  exact (proj1 (proj2 (offset_has_more_from_count
    (mkWorld (set_pagination_info (users_paginator 100)
                (Some (mkPaginationInfo JNull JNull (JNum 250) JNull JNull JNull))) [])
    "users" (mkPaginationInfo JNull JNull (JNum 250) JNull JNull JNull) eq_refl eq_refl))
    250 eq_refl eq_refl ltac:(cbn; lia)).
Defined.

Lemma cursor_update_saves_cursor_witness :
  next_cursor (pag (fst (update_pagination_state
                           (JObj [("tickets", JArr []); ("after_cursor", JStr "c1")])
                           (mkWorld incremental_tickets_paginator []))))
  = JStr "c1".
Proof.
  pose proof (cursor_update_saves_cursor (mkWorld incremental_tickets_paginator []) "tickets"
                [("tickets", JArr []); ("after_cursor", JStr "c1")] eq_refl
                (fun lk H => match H with eq_refl => I end)) as H.
  destruct H as (_ & _ & H3 & _). exact (H3 eq_refl).
Defined.

Lemma cursor_blank_cursor_restarts_witness :
  snd (update_pagination_state (JObj [("tickets", JArr []); ("after_cursor", JStr "")])
         (mkWorld incremental_tickets_paginator [])) = Ret (JBool true) /\
  build_page_params (pag (fst (update_pagination_state
                                 (JObj [("tickets", JArr []); ("after_cursor", JStr "")])
                                 (mkWorld incremental_tickets_paginator []))))
    = dict_update [("start_time", JNum 0)] [("per_page", JNum 100)].
Proof.
  exact (cursor_blank_cursor_restarts (mkWorld incremental_tickets_paginator []) "tickets"
           [("tickets", JArr []); ("after_cursor", JStr "")] eq_refl eq_refl eq_refl eq_refl eq_refl).
Defined.

Lemma extract_users_keyed_witness :
  let r := JObj [("users", JArr [user_json 1 "old"; user_json 2 "b"; user_json 1 "new"])] in
  exists m, extract_users_from_response r = Ret m /\
  exists v datas us,
    py_get r "users" (JArr []) = Ret v /\ py_iter v = Ret datas /\
    map_res parse_user datas = Ret us /\ map user_data us = datas /\
    forall k, m !! k = last (List.filter (fun u => bool_decide (user_id u = Some k)) us).
Proof.
  cbv zeta.
  exists (match extract_users_from_response
                  (JObj [("users", JArr [user_json 1 "old"; user_json 2 "b"; user_json 1 "new"])])
          with Ret m => m | _ => ∅ end).
  split; [vm_compute; reflexivity|].
  apply extract_users_keyed. vm_compute. reflexivity.
Defined.

Lemma enrich_batch_calls_witness :
  pag (fst (build_enriched_tickets srv_comments reverse_completion three_tickets ∅
              (mkWorld no_paginator []))) = no_paginator /\
  exists l, calls (fst (build_enriched_tickets srv_comments reverse_completion three_tickets ∅
                          (mkWorld no_paginator []))) = [] ++ l /\
    Permutation l [comments_request 1; comments_request 2; comments_request 3].
Proof.
  exact (enrich_batch_calls srv_comments reverse_completion three_tickets ∅
           (mkWorld no_paginator []) (Permutation_sym (Permutation_rev _))).
Defined.

Lemma list_enriched_run_witness :
  let srv := fun (_ : list request) (_ : request) =>
               inr (JObj [("tickets", JArr [ticket_json 1 10 0 []; ticket_json 2 20 0 []]);
                          ("users", JArr [user_json 10 "a"])]) : exn + json in
  exists l, calls (fst (list_enriched srv reverse_completion (org_tickets_request 5 100)
                          (mkWorld no_paginator [])))
            = [] ++ org_tickets_request 5 100 :: l /\
    Permutation l [comments_request 1; comments_request 2].
Proof.
  cbv zeta.
  set (body := JObj [("tickets", JArr [ticket_json 1 10 0 []; ticket_json 2 20 0 []]);
                     ("users", JArr [user_json 10 "a"])]).
  set (datas := [ticket_json 1 10 0 []; ticket_json 2 20 0 []]).
  set (ts := match map_res parse_ticket datas with Ret ts => ts | _ => [] end).
  set (tu := match extract_users_from_response body with Ret m => m | _ => ∅ end).
  destruct (list_enriched_run (fun _ _ => inr body) reverse_completion (org_tickets_request 5 100)
              (mkWorld no_paginator []) body (JArr datas) datas ts tu eq_refl
              ltac:(vm_compute; reflexivity) ltac:(vm_compute; reflexivity)
              ltac:(vm_compute; reflexivity) ltac:(vm_compute; reflexivity)
              (Permutation_sym (Permutation_rev _))) as [_ (l & Hc & Hp)].
  exists l. split; [exact Hc|]. exact Hp.
Defined.

Lemma search_enriched_tickets_calls_witness :
  exists u l,
    calls (fst (search_enriched_tickets (srv_ticket_page 10) (elements : gset Z -> list Z) (fun n => seq 0 n)
                  "status:open" 100 (mkWorld no_paginator [])))
    = [] ++ search_once_request "status:open" 100 :: u ++ l /\
    (u = [] \/ exists ids, u = [show_many_request ids]) /\ length l = 10%nat.
Proof.
  assert (Hok : snd (search_enriched_tickets (srv_ticket_page 10) (elements : gset Z -> list Z)
                       (fun n => seq 0 n) "status:open" 100 (mkWorld no_paginator []))
                 = Ret (match snd (search_enriched_tickets (srv_ticket_page 10)
                                    (elements : gset Z -> list Z) (fun n => seq 0 n)
                                    "status:open" 100 (mkWorld no_paginator []))
                        with Ret es => es | _ => [] end)) by (vm_compute; reflexivity).
  destruct (search_enriched_tickets_calls (srv_ticket_page 10) (elements : gset Z -> list Z)
              (fun n => seq 0 n) "status:open" 100 (mkWorld no_paginator []) _
              (fun n => Permutation_refl _) Hok)
    as (body & raw & rs & ts & u & l & Hs & Hraw & Hi & Hts & Hc & Hu & Hp).
  exists u, l. split; [exact Hc|]. split; [exact Hu|].
  rewrite (Permutation_length Hp), length_map.
  assert (Ets : ts = map ticket_of_result [1;2;3;4;5;6;7;8;9;10]).
  { vm_compute in Hs. injection Hs as <-. vm_compute in Hraw. injection Hraw as <-.
    vm_compute in Hi. injection Hi as <-. vm_compute in Hts. injection Hts as <-. reflexivity. }
  rewrite Ets. reflexivity.
Defined.

Lemma tickets_limit_bound_witness :
  Z.of_nat (length (map ticket_of_result [1;2;3;4;5])) <= 5.
Proof.
  exact (tickets_limit_bound (srv_ticket_page 20) 5 "status:open" 10 50 (mkWorld no_paginator [])
           (map ticket_of_result [1;2;3;4;5]) ltac:(lia) ltac:(vm_compute; reflexivity)).
Defined.

Lemma search_enriched_limit_bound_witness :
  let es := match snd (search_enriched_drain (srv_ticket_page 20) (elements : gset Z -> list Z) (fun n => seq 0 n)
                         (Some 3) 50 (SeStart "status:open" 10) (mkWorld no_paginator []))
            with Ret es => es | _ => [] end in
  Z.of_nat (length es) <= 3 /\ length es = 3%nat.
Proof.
  cbv zeta. split; [|vm_compute; reflexivity].
  assert (Hok : snd (search_enriched_drain (srv_ticket_page 20) (elements : gset Z -> list Z)
                       (fun n => seq 0 n) (Some 3) 50 (SeStart "status:open" 10)
                       (mkWorld no_paginator []))
                 = Ret (match snd (search_enriched_drain (srv_ticket_page 20)
                                    (elements : gset Z -> list Z) (fun n => seq 0 n) (Some 3) 50
                                    (SeStart "status:open" 10) (mkWorld no_paginator []))
                        with Ret es => es | _ => [] end)) by (vm_compute; reflexivity).
  exact (search_enriched_limit_bound (srv_ticket_page 20) (elements : gset Z -> list Z)
           (fun n => seq 0 n) 3 "status:open" 10 50 (mkWorld no_paginator []) _ ltac:(lia) Hok).
Defined.

Lemma export_tickets_limit_bound_witness :
  let ts := match snd (export_tickets_drain srv_export (Some 1) 20 (ExStart "status:open" 100)
                         (mkWorld no_paginator []))
            with Ret ts => ts | _ => [] end in
  Z.of_nat (length ts) <= 1 /\ ts = [ticket_of_result 1].
Proof.
  cbv zeta. split; [|vm_compute; reflexivity].
  exact (export_tickets_limit_bound srv_export 1 "status:open" 100 20 (mkWorld no_paginator [])
           _ ltac:(lia) ltac:(vm_compute; reflexivity)).
Defined.

Lemma last_page_ends_iteration_witness :
  let srv := fun (_ : list request) (_ : request) =>
               inr (JObj [("users", JArr [JNum 1; JNum 2]); ("has_more", JBool false)])
               : exn + json in
  exists w', aiter_drain srv 5 AStart (mkWorld (users_paginator 100) []) = (w', Ret [JNum 1; JNum 2]) /\
    calls w' = [] ++ [page_request (set_current_page (users_paginator 100) 1)].
Proof.
  cbv zeta.
  exact (last_page_ends_iteration
           (fun _ _ => inr (JObj [("users", JArr [JNum 1; JNum 2]); ("has_more", JBool false)]))
           5 (mkWorld (users_paginator 100) []) "users"
           [("users", JArr [JNum 1; JNum 2]); ("has_more", JBool false)] [JNum 1; JNum 2]
           (or_introl eq_refl) eq_refl eq_refl eq_refl
           (fun lk H => match H with eq_refl => I end) ltac:(cbn; lia)).
Defined.

Lemma export_update_state_witness :
  exists p', update_pagination_state
               (JObj [("results", JArr []); ("meta", JObj [("after_cursor", JStr "c9")])])
               (mkWorld export_tickets_paginator [])
             = (mkWorld p' [], Ret (JBool false)) /\
    next_cursor p' = JStr "c9" /\ has_started p' = true /\ frame p' = frame export_tickets_paginator.
Proof.
  exact (export_update_state (mkWorld export_tickets_paginator [])
           [("results", JArr []); ("meta", JObj [("after_cursor", JStr "c9")])]
           [] [("after_cursor", JStr "c9")] eq_refl eq_refl eq_refl).
Defined.
